(** * NYC property sales fetcher: a model of [scripts/fetch_data.py]

    The script pages through the Socrata endpoint of the NYC rolling
    sales data set, accumulates the pages and saves them twice as CSV.
    This file embeds [NYCDataFetcher.fetch_sales_data] and
    [NYCDataFetcher.get_dataset_info] as functions over an explicit
    world (requests sent, log lines, files written) and proves the
    properties the specification states about them.

    Conventions:
    - Python integers are [Z]; [len(x)] is [Z.of_nat (length x)].
    - The network is an oracle: the reply to the [n]-th call of
      [requests.get] may depend on [n] and on the request.
    - [while True] is run with a fuel bound; results about returning are
      stated for every large enough fuel.
    - Strings are byte strings holding UTF-8.
    - A file is kept as the table that [to_csv] was given for it; the
      text of the file is what the csv writer makes of that table
      ([to_csv_text]), and [read_csv] tokenizes that text. *)

From Stdlib Require Import ZArith String Ascii List Bool Lia DecimalString.
From stdpp Require Import gmap strings list fin_maps.

Set Warnings "-register-all".

(** ** JSON values, as [response.json()] hands them to Python *)

Inductive JSON : Type :=
| JNull
| JBool (b : bool)
| JNum (literal : string)
| JStr (s : string)
| JArr (items : list JSON)
| JObj (members : list (string * JSON)).

(** One element of a sales page: a JSON object, field name to value. *)
Definition SaleRecord : Type := list (string * JSON).

(** [d.get(k)] on a dict kept as its items in insertion order. *)
Fixpoint dict_get {A} (k : string) (kv : list (string * A)) : option A :=
  match kv with
  | [] => None
  | (k', v) :: kv' => if String.eqb k k' then Some v else dict_get k kv'
  end.

(** ** Exceptions *)

(** The [requests.exceptions.RequestException] family: what
    [requests.get], [raise_for_status] and [json] raise. *)
Inductive RequestException : Type :=
| ConnectionError
| Timeout
| HTTPError (status : Z)
| JSONDecodeError.

(** Exceptions seen in this script; all of them derive from [Exception]. *)
Inductive PyException : Type :=
| RequestError (e : RequestException)
| TypeError
| AttributeError
| KeyError.

(** ** HTTP requests and responses *)

Inductive ParamValue : Type :=
| PInt (z : Z)
| PStr (s : string).

Record Request : Type := mkRequest {
  http_method : string;
  url : string;
  params : list (string * ParamValue);
  headers : gmap string string;
  timeout_s : Z
}.

(** A response object: [status_code] is its HTTP status, [body] is what
    [json()] raises or returns. *)
Record Response (A : Type) : Type := mkResponse {
  status_code : Z;
  body : RequestException + A
}.
Arguments mkResponse {A}.
Arguments status_code {A}.
Arguments body {A}.

(** [response.raise_for_status()]: what it raises, if anything. The
    [requests] library raises [HTTPError] for the client errors 4xx and
    the server errors 5xx, and for no other status. *)
Definition raise_for_status {A} (response : Response A)
  : option RequestException :=
  if ((400 <=? status_code response) && (status_code response <? 600))%Z
  then Some (HTTPError (status_code response))
  else None.

(** Integer query parameter [k] of a request, 0 when absent. *)
Definition param_int (k : string) (req : Request) : Z :=
  match dict_get k (params req) with
  | Some (PInt z) => z
  | _ => 0%Z
  end.

(** [requests.get] as seen by its [n]-th caller. *)
Definition Transport (A : Type) : Type :=
  nat -> Request -> RequestException + Response A.

(** ** Logging *)

Inductive Fragment : Type :=
| Lit (s : string)
| Num (z : Z)
| Val (v : JSON)
| Exc (e : PyException).

Inductive LogEntry : Type :=
| INFO (msg : list Fragment)
| ERROR (msg : list Fragment)
| WARNING (msg : list Fragment).

(** ** pandas frames *)

Record Frame : Type := mkFrame {
  columns : list string;
  rows : list (list (option JSON))
}.

Definition record_keys (r : SaleRecord) : list string := r.*1.


(** Column labels: the keys of the records in order of first appearance. *)
Definition add_key (seen : list string) (k : string) : list string :=
  if decide (k ∈ seen) then seen else seen ++ [k].

Definition frame_columns (data : list SaleRecord) : list string :=
  foldl add_key [] (concat (record_keys <$> data)).

(** The cell of record [r] in column [c]: its value, or NaN ([None])
    when the field is missing or holds [null]. *)
Definition frame_cell (c : string) (r : SaleRecord) : option JSON :=
  match dict_get c r with
  | Some JNull => None
  | v => v
  end.

(** [pd.DataFrame(all_data)]: one row per record. *)
Definition DataFrame (data : list SaleRecord) : Frame :=
  let cols := frame_columns data in
  {| columns := cols;
     rows := (fun r => (fun c => frame_cell c r) <$> cols) <$> data |}.

(** [len(df)] *)
Definition frame_len (df : Frame) : Z := Z.of_nat (length (rows df)).

(** ** The world the script acts on *)

Record World : Type := mkWorld {
  sent : list Request;            (* requests issued so far, oldest first *)
  log : list LogEntry;            (* lines given to the logger *)
  sleeps : nat;                   (* calls of time.sleep(0.5) *)
  files : gmap string Frame       (* path to table written *)
}.

Definition world0 : World :=
  {| sent := []; log := []; sleeps := 0; files := ∅ |}.

Definition logger (entry : LogEntry) (w : World) : World :=
  {| sent := sent w; log := log w ++ [entry];
     sleeps := sleeps w; files := files w |}.

Definition record_request (req : Request) (w : World) : World :=
  {| sent := sent w ++ [req]; log := log w;
     sleeps := sleeps w; files := files w |}.

Definition time_sleep (w : World) : World :=
  {| sent := sent w; log := log w;
     sleeps := S (sleeps w); files := files w |}.

(** [df.to_csv(path, index=False)] when the file can be written; a
    write that fails is dealt with in [fetch_sales_data_io]. *)
Definition to_csv (path : string) (df : Frame) (w : World) : World :=
  {| sent := sent w; log := log w;
     sleeps := sleeps w; files := <[path := df]> (files w) |}.

(** What the script cannot decide itself. *)
Record Env : Type := mkEnv {
  sales_api : Transport (list SaleRecord);
  metadata_api : Transport JSON;
  today : string;        (* datetime.now().strftime("%Y-%m-%d") *)
  timestamp : string     (* datetime.now().strftime("%Y%m%d_%H%M%S") *)
}.

(** A well-behaved Socrata endpoint holding [db], the records in the
    requested date range in the requested order: it serves the slice
    [db[offset : offset + limit]]. *)
Definition socrata (db : list SaleRecord) : Transport (list SaleRecord) :=
  fun _ req =>
    inr {| status_code := 200;
           body := inr (take (Z.to_nat (param_int "$limit" req))
                          (drop (Z.to_nat (param_int "$offset" req)) db)) |}.

(** ** NYCDataFetcher *)

Record NYCDataFetcher : Type := mkFetcher {
  base_url : string;
  sales_endpoint : string;
  data_dir : string;
  limit : Z;
  timeout : Z
}.

(** [NYCDataFetcher.__init__] *)
Definition NYCDataFetcher_init : NYCDataFetcher :=
  {| base_url := "https://data.cityofnewyork.us/resource";
     sales_endpoint := "usep-8jbt.json";
     data_dir := "data/raw";
     limit := 50000;
     timeout := 30 |}.

(** [self.data_dir / name] *)
Definition path_join (dir name : string) : string := dir +:+ "/" +:+ name.

(** The three calls that can fail inside [try]:
    [requests.get], [raise_for_status], [json]. *)
Definition http_json {A} (tr : Transport A) (n : nat) (req : Request)
  : RequestException + A :=
  match tr n req with
  | inl e => inl e
  | inr response =>
      match raise_for_status response with
      | Some e => inl e
      | None => body response
      end
  end.

(** Variables of [fetch_sales_data] that change in the loop. *)
Record Locals : Type := mkLocals {
  all_data : list SaleRecord;
  offset : Z;
  total_fetched : Z
}.

Definition locals0 : Locals :=
  {| all_data := []; offset := 0; total_fetched := 0 |}.

Inductive Ctl : Type :=
| Continue (st : Locals)
| Break (st : Locals)
| Raise (e : RequestException).

Section fetch_sales_data.
Context (self : NYCDataFetcher) (env : Env).
Context (start_date end_date : string) (request_headers : gmap string string).

(** The [params] dictionary of one iteration. *)
Definition build_params (off : Z) : list (string * ParamValue) :=
  [ ("$limit", PInt (limit self));
    ("$offset", PInt off);
    ("$where", PStr ("sale_date >= '" +:+ start_date
                     +:+ "' AND sale_date <= '" +:+ end_date +:+ "'"));
    ("$order", PStr "sale_date DESC") ].

Definition build_request (off : Z) : Request :=
  {| http_method := "GET";
     url := base_url self +:+ "/" +:+ sales_endpoint self;
     params := build_params off;
     headers := request_headers;
     timeout_s := timeout self |}.

(** One pass through the body of [while True]. *)
Definition loop_body (w : World) (st : Locals) : Ctl * World :=
  let req := build_request (offset st) in
  let w := logger (INFO [Lit "Requesting records "; Num (offset st);
                         Lit " to "; Num (offset st + limit self);
                         Lit "..."]) w in
  let n := length (sent w) in
  let w := record_request req w in
  match http_json (sales_api env) n req with
  | inr data =>
      match data with
      | [] => (Break st, logger (INFO [Lit "No more records to fetch"]) w)
      | _ :: _ =>
          let all_data' := all_data st ++ data in
          let total' := (total_fetched st + Z.of_nat (length data))%Z in
          let w := logger (INFO [Lit "Fetched "; Num (Z.of_nat (length data));
                                 Lit " records (Total: "; Num total';
                                 Lit ")"]) w in
          if (Z.of_nat (length data) <? limit self)%Z then
            (Break {| all_data := all_data'; offset := offset st;
                      total_fetched := total' |},
             logger (INFO [Lit "Reached end of dataset"]) w)
          else
            (Continue {| all_data := all_data';
                         offset := offset st + limit self;
                         total_fetched := total' |},
             time_sleep w)
      end
  | inl e =>
      let w := logger (ERROR [Lit "API request failed: ";
                              Exc (RequestError e)]) w in
      if (0 <? offset st)%Z then
        (Break st, logger (INFO [Lit "Returning "; Num (total_fetched st);
                                 Lit " records fetched so far"]) w)
      else (Raise e, w)
  end.

Inductive LoopExit : Type :=
| Exhausted (st : Locals)       (* fuel ran out, the loop is still going *)
| Finished (st : Locals)        (* left by [break] *)
| Propagated (e : RequestException).

Fixpoint while_true (fuel : nat) (w : World) (st : Locals)
  : LoopExit * World :=
  match fuel with
  | O => (Exhausted st, w)
  | S fuel' =>
      match loop_body w st with
      | (Continue st', w') => while_true fuel' w' st'
      | (Break st', w') => (Finished st', w')
      | (Raise e, w') => (Propagated e, w')
      end
  end.

(** Reply to the request of state [st] in world [w]. *)
Definition reply_at (w : World) (st : Locals)
  : RequestException + list SaleRecord :=
  http_json (sales_api env) (length (sent w)) (build_request (offset st)).

(** A page after which the loop stops: empty, or shorter than [limit]. *)
Definition last_page (data : list SaleRecord) : bool :=
  match data with
  | [] => true
  | _ :: _ => (Z.of_nat (length data) <? limit self)%Z
  end.

(** The reply the loop will get [i] passes after state [st] in world [w],
    provided it gets that far. *)
Definition page_from (w : World) (st : Locals) (i : nat)
  : RequestException + list SaleRecord :=
  http_json (sales_api env) (length (sent w) + i)
    (build_request (offset st + Z.of_nat i * limit self)).
End fetch_sales_data.

(** [if app_token:] holds for a non-empty string only. *)
Definition truthy (s : option string) : bool :=
  match s with
  | Some (String _ _) => true
  | _ => false
  end.

Definition build_headers (app_token : option string) : gmap string string :=
  match app_token with
  | Some tok => if truthy app_token then <["X-App-Token" := tok]> ∅ else ∅
  | None => ∅
  end.

Definition archive_name (env : Env) (start_date end_date : string) : string :=
  "nyc_property_sales_" +:+ start_date +:+ "_" +:+ end_date
    +:+ "_" +:+ timestamp env +:+ ".csv".

Definition archive_path (self : NYCDataFetcher) (env : Env)
    (start_date end_date : string) : string :=
  path_join (data_dir self) (archive_name env start_date end_date).

Definition standard_path (self : NYCDataFetcher) : string :=
  path_join (data_dir self) "nyc_property_sales.csv".

(** How a call ends. [Running] stands for a loop that outlives the fuel. *)
Inductive Result (E A : Type) : Type :=
| Returned (a : A)
| Raised (e : E)
| Running.
Arguments Returned {E A}.
Arguments Raised {E A}.
Arguments Running {E A}.

(** [end_date if end_date is not None else today] *)
Definition resolve_end_date (env : Env) (end_date : option string) : string :=
  match end_date with
  | Some d => d
  | None => today env
  end.

(** [NYCDataFetcher.fetch_sales_data] *)
Definition fetch_sales_data (self : NYCDataFetcher) (env : Env) (fuel : nat)
    (start_date : string) (end_date : option string)
    (app_token : option string) (w : World)
  : Result RequestException Frame * World :=
  let end_date := resolve_end_date env end_date in
  let w := logger (INFO [Lit "Fetching NYC property sales data from ";
                         Lit start_date; Lit " to "; Lit end_date]) w in
  let w := logger (INFO [Lit "Using Socrata Open Data API"]) w in
  let hdrs := build_headers app_token in
  let w := if truthy app_token
           then logger (INFO [Lit "Using app token for higher rate limits"]) w
           else w in
  match while_true self env start_date end_date hdrs fuel w locals0 with
  | (Exhausted _, w) => (Running, w)
  | (Propagated e, w) => (Raised e, w)
  | (Finished st, w) =>
      let df := DataFrame (all_data st) in
      let w := logger (INFO [Lit "Successfully fetched "; Num (frame_len df);
                             Lit " total records"]) w in
      let filepath := archive_path self env start_date end_date in
      let w := to_csv filepath df w in
      let w := logger (INFO [Lit "Raw data saved to: "; Lit filepath]) w in
      let w := to_csv (standard_path self) df w in
      let w := logger (INFO [Lit "Data also saved as: ";
                             Lit (standard_path self)]) w in
      (Returned df, w)
  end.

(** ** Python operations on JSON values, used by [get_dataset_info] *)

(** A Python [str] is kept as the bytes of its UTF-8 encoding; a byte
    10xxxxxx continues the character begun before it. *)
Definition continuation_byte (c : Ascii.ascii) : bool :=
  let n := Ascii.nat_of_ascii c in (128 <=? n) && (n <? 192).

(** The continuation bytes a string starts with, and the characters
    after them. *)
Fixpoint utf8_split (s : string) : string * list string :=
  match s with
  | EmptyString => (EmptyString, [])
  | String c s' =>
      let (k, chars) := utf8_split s' in
      if continuation_byte c then (String c k, chars)
      else (EmptyString, String c k :: chars)
  end.

(** The characters of a string. *)
Definition utf8_chars (s : string) : list string := (utf8_split s).2.

(** [s[:n]]: the first [n] characters. *)
Definition str_take (n : nat) (s : string) : string :=
  String.concat EmptyString (take n (utf8_chars s)).

(** [iter(s)]: the characters, each a string. *)
Definition str_chars (s : string) : list JSON := JStr <$> utf8_chars s.

(** [v.get(k, default)]: only a dict has [get]. *)
Definition py_get (v : JSON) (k : string) (default : JSON)
  : PyException + JSON :=
  match v with
  | JObj kv => inr (from_option id default (dict_get k kv))
  | _ => inl AttributeError
  end.

(** [v[:n]]: strings and lists can be sliced. *)
Definition py_slice (v : JSON) (n : nat) : PyException + JSON :=
  match v with
  | JStr s => inr (JStr (str_take n s))
  | JArr l => inr (JArr (take n l))
  | _ => inl TypeError
  end.

(** [k in v] for the dict that [metadata] is once [get] has worked;
    on a list or a string [in] means membership or containment, which
    the script never reaches. *)
Definition py_contains (k : string) (v : JSON) : PyException + bool :=
  match v with
  | JObj kv => inr (bool_decide (is_Some (dict_get k kv)))
  | _ => inl TypeError
  end.

(** [v[k]] with a string key. *)
Definition py_getitem (v : JSON) (k : string) : PyException + JSON :=
  match v with
  | JObj kv => match dict_get k kv with
               | Some x => inr x
               | None => inl KeyError
               end
  | _ => inl TypeError
  end.

(** [len(v)] *)
Definition py_len (v : JSON) : PyException + Z :=
  match v with
  | JStr s => inr (Z.of_nat (length (utf8_chars s)))
  | JArr l => inr (Z.of_nat (length l))
  | JObj kv => inr (Z.of_nat (length kv))
  | _ => inl TypeError
  end.

(** [iter(v)] of a value that was sliced, hence a string or a list. *)
Definition py_iter (v : JSON) : PyException + list JSON :=
  match v with
  | JStr s => inr (str_chars s)
  | JArr l => inr l
  | JObj kv => inr (JStr <$> kv.*1)
  | _ => inl TypeError
  end.

(** ** A state and exception monad for [get_dataset_info] *)

Definition Py (A : Type) : Type := World -> (PyException + A) * World.

Definition py_ret {A} (a : A) : Py A := fun w => (inr a, w).

Definition py_bind {A B} (m : Py A) (f : A -> Py B) : Py B :=
  fun w => match m w with
           | (inr a, w') => f a w'
           | (inl e, w') => (inl e, w')
           end.

Definition py_lift {A} (r : PyException + A) : Py A := fun w => (r, w).

Definition py_log (entry : LogEntry) : Py unit :=
  fun w => (inr tt, logger entry w).

(** [try: body  except Exception as e: handler e]; every [PyException]
    is an [Exception]. *)
Definition try_except {A} (body : Py A) (handler : PyException -> Py A)
  : Py A :=
  fun w => match body w with
           | (inl e, w') => handler e w'
           | (inr a, w') => (inr a, w')
           end.

Notation "'do' x <- m ; k" := (py_bind m (fun x => k))
  (at level 10, x name, m at level 100, k at level 200).
Notation "'run' m ; k" := (py_bind m (fun _ => k))
  (at level 10, m at level 100, k at level 200).

(** [requests.get(metadata_url, timeout=...)], [raise_for_status], [json] *)
Definition py_http_json (tr : Transport JSON) (req : Request) : Py JSON :=
  fun w =>
    let n := length (sent w) in
    let w := record_request req w in
    match http_json tr n req with
    | inl e => (inl (RequestError e), w)
    | inr v => (inr v, w)
    end.

(** The body of [for col in metadata['columns'][:10]]. *)
Fixpoint log_columns (cols : list JSON) : Py unit :=
  match cols with
  | [] => py_ret tt
  | col :: cols' =>
      do name <- py_lift (py_get col "name" (JStr "N/A"));
      do ty <- py_lift (py_get col "dataTypeName" (JStr "N/A"));
      run py_log (INFO [Lit "  - "; Val name; Lit ": "; Val ty]);
      log_columns cols'
  end.

Definition metadata_url : string :=
  "https://data.cityofnewyork.us/api/views/usep-8jbt.json".

Definition metadata_request (self : NYCDataFetcher) : Request :=
  {| http_method := "GET"; url := metadata_url; params := [];
     headers := ∅; timeout_s := timeout self |}.

(** [NYCDataFetcher.get_dataset_info] *)
Definition get_dataset_info (self : NYCDataFetcher) (env : Env)
  : Py (option JSON) :=
  try_except
    (do metadata <- py_http_json (metadata_api env) (metadata_request self);
     run py_log (INFO [Lit "Dataset Information:"]);
     do name <- py_lift (py_get metadata "name" (JStr "N/A"));
     run py_log (INFO [Lit "Name: "; Val name]);
     do descr <- py_lift (py_get metadata "description" (JStr "N/A"));
     do descr200 <- py_lift (py_slice descr 200);
     run py_log (INFO [Lit "Description: "; Val descr200; Lit "..."]);
     do updated <- py_lift (py_get metadata "rowsUpdatedAt" (JStr "N/A"));
     run py_log (INFO [Lit "Rows: "; Val updated]);
     do updated' <- py_lift (py_get metadata "rowsUpdatedAt" (JStr "N/A"));
     run py_log (INFO [Lit "Last Updated: "; Val updated']);
     do has_columns <- py_lift (py_contains "columns" metadata);
     run (if has_columns : bool then
        do cols <- py_lift (py_getitem metadata "columns");
        do n <- py_lift (py_len cols);
        run py_log (INFO [Lit "Total Columns: "; Num n]);
        run py_log (INFO [Lit "
Key Columns:"]);
        do first10 <- py_lift (py_slice cols 10);
        do items <- py_lift (py_iter first10);
        log_columns items
      else py_ret tt);
     py_ret (Some metadata))
    (fun e =>
       run py_log (ERROR [Lit "Failed to fetch dataset metadata: "; Exc e]);
       py_ret None).

(** The requests a call added to the world. *)
Definition issued (w w' : World) : list Request :=
  drop (length (sent w)) (sent w').

(** ** Notions used to state the properties *)

(** The world in which the loop starts: two or three log lines later. *)
Definition loop_entry (start_date end_date : string)
    (app_token : option string) (w : World) : World :=
  let w := logger (INFO [Lit "Fetching NYC property sales data from ";
                         Lit start_date; Lit " to "; Lit end_date]) w in
  let w := logger (INFO [Lit "Using Socrata Open Data API"]) w in
  if truthy app_token
  then logger (INFO [Lit "Using app token for higher rate limits"]) w
  else w.

(** The loop as [fetch_sales_data] runs it. *)
Definition fetch_loop (self : NYCDataFetcher) (env : Env) (fuel : nat)
    (start_date : string) (end_date : option string)
    (app_token : option string) (w : World) : LoopExit * World :=
  let e := resolve_end_date env end_date in
  while_true self env start_date e (build_headers app_token) fuel
    (loop_entry start_date e app_token w) locals0.

(** The reply to the [k]-th page request of a call (counting from 0),
    the one with offset [k * limit]. *)
Definition nth_page (self : NYCDataFetcher) (env : Env)
    (start_date : string) (end_date : option string)
    (app_token : option string) (w : World) (k : nat)
  : RequestException + list SaleRecord :=
  http_json (sales_api env) (length (sent w) + k)
    (build_request self start_date (resolve_end_date env end_date)
       (build_headers app_token) (Z.of_nat k * limit self)).

(** [ceil(n / p)] for positive [p]. *)
Definition ceil_div (n p : Z) : Z := ((n + p - 1) / p)%Z.

(** Every call of the sales endpoint yields a page. *)
Definition all_requests_succeed (env : Env) : Prop :=
  forall n req, exists data, http_json (sales_api env) n req = inr data.

(** The call ends, by returning or raising, for some fuel. *)
Definition terminates (self : NYCDataFetcher) (env : Env)
    (start_date : string) (end_date : option string)
    (app_token : option string) (w : World) : Prop :=
  exists fuel,
    (fetch_sales_data self env fuel start_date end_date app_token w).1
      <> Running.

(** A sample record, endpoint and environment for concrete runs. *)
Definition sample_record : SaleRecord :=
  [("borough", JStr "1"); ("sale_date", JStr "2020-01-01T00:00:00.000")].

Definition sample_env (sales : Transport (list SaleRecord)) : Env :=
  {| sales_api := sales;
     metadata_api := fun _ _ => inl ConnectionError;
     today := "2026-01-31";
     timestamp := "20260131_120000" |}.

(** A fetcher with pages of two records, for short concrete runs. *)
Definition small_fetcher : NYCDataFetcher :=
  {| base_url := base_url NYCDataFetcher_init;
     sales_endpoint := sales_endpoint NYCDataFetcher_init;
     data_dir := data_dir NYCDataFetcher_init;
     limit := 2;
     timeout := timeout NYCDataFetcher_init |}.

(** A transport whose first call yields [page] and whose later calls
    fail with [x]. *)
Definition page_then_failure (page : list SaleRecord) (x : RequestException)
  : Transport (list SaleRecord) :=
  fun n _ =>
    match n with
    | O => inr {| status_code := 200; body := inr page |}
    | S _ => inl x
    end.

(** A transport that always fails with [x]. *)
Definition always_failing {A} (x : RequestException) : Transport A :=
  fun _ _ => inl x.

(** A metadata document of the expected shape. *)
Definition sample_metadata : JSON :=
  JObj [ ("name", JStr "NYC Citywide Rolling Calendar Sales");
         ("description", JStr "Property sales of the last twelve months");
         ("rowsUpdatedAt", JNum "1700000000");
         ("columns",
          JArr [ JObj [("name", JStr "BOROUGH"); ("dataTypeName", JStr "text")];
                 JObj [("name", JStr "SALE DATE");
                       ("dataTypeName", JStr "calendar_date")] ]) ].

(** An environment whose metadata endpoint answers with [v]. *)
Definition metadata_env (v : JSON) : Env :=
  {| sales_api := always_failing Timeout;
     metadata_api := fun _ _ => inr {| status_code := 200; body := inr v |};
     today := "2026-01-31";
     timestamp := "20260131_120000" |}.

(** An app token is supplied when the argument is a non-empty string;
    [None] and the empty string carry no token. *)
Definition token_supplied (app_token : option string) : Prop :=
  exists tok, app_token = Some tok /\ tok <> EmptyString.

(** The table that was handed to [to_csv] for [path], if any. *)
Definition read_back (path : string) (w : World) : option Frame :=
  files w !! path.

(** The field names occurring in a sequence of records. *)
Definition field_of (data : list SaleRecord) (c : string) : Prop :=
  exists r, r ∈ data /\ c ∈ record_keys r.

(** The line the handler of [get_dataset_info] logs for exception [x]. *)
Definition metadata_failure (x : PyException) : LogEntry :=
  ERROR [Lit "Failed to fetch dataset metadata: "; Exc x].

(** The outcome of the probe when one of the three calls of the
    [requests] library fails with [x]. *)
Definition probe_failed (self : NYCDataFetcher) (env : Env) (w : World)
    (x : RequestException) : Prop :=
  get_dataset_info self env w =
    (inr None,
     logger (metadata_failure (RequestError x))
       (record_request (metadata_request self) w)).

(** Actions that leave the files alone. *)
Definition keeps_files {A} (m : Py A) : Prop :=
  forall w, files (m w).2 = files w.

(** ** Further notions: what a run accumulated, slept and logged *)

(** The records a reply contributes to [all_data]: its page, or nothing
    when the request failed. *)
Definition page_data (r : RequestException + list SaleRecord)
  : list SaleRecord :=
  match r with
  | inr data => data
  | inl _ => []
  end.

(** The loop variables at the end of a run, unless an error came out. *)
Definition exit_locals (r : LoopExit) : option Locals :=
  match r with
  | Exhausted st | Finished st => Some st
  | Propagated _ => None
  end.

(** The loop is over. *)
Definition ended (r : LoopExit) : bool :=
  match r with
  | Exhausted _ => false
  | Finished _ | Propagated _ => true
  end.

(** The counter and the accumulated list agree. *)
Definition counted (st : Locals) : Prop :=
  total_fetched st = Z.of_nat (length (all_data st)).

(** The records of the first [k] page replies of a call, in order. *)
Definition pages_received (self : NYCDataFetcher) (env : Env)
    (start_date : string) (end_date : option string)
    (app_token : option string) (w : World) (k : nat) : list SaleRecord :=
  concat ((fun i =>
             page_data (nth_page self env start_date end_date app_token w i))
            <$> seq 0 k).

(** The three lines [fetch_sales_data] logs while saving frame [df]. *)
Definition saving_lines (self : NYCDataFetcher) (env : Env)
    (start_date end_date : string) (df : Frame) : list LogEntry :=
  [ INFO [Lit "Successfully fetched "; Num (frame_len df);
          Lit " total records"];
    INFO [Lit "Raw data saved to: ";
          Lit (archive_path self env start_date end_date)];
    INFO [Lit "Data also saved as: "; Lit (standard_path self)] ].

(** A transport that serves the pages of a script in turn and fails with
    [x] once the script is used up. *)
Definition scripted (script : list (list SaleRecord)) (x : RequestException)
  : Transport (list SaleRecord) :=
  fun n _ =>
    match script !! n with
    | Some page => inr {| status_code := 200; body := inr page |}
    | None => inl x
    end.

(** ** Further notions: metadata the probe can digest *)

(** Values that [v[:n]] accepts: strings and lists. *)
Definition sliceable (v : JSON) : bool :=
  match v with
  | JStr _ | JArr _ => true
  | _ => false
  end.

(** Values that have a [get] method: dicts. *)
Definition is_object (v : JSON) : bool :=
  match v with
  | JObj _ => true
  | _ => false
  end.

(** A [columns] entry the probe can list: a list whose first ten
    elements are dicts, or a string without characters. *)
Definition columns_ok (cols : JSON) : bool :=
  match cols with
  | JArr l => forallb is_object (take 10 l)
  | JStr s => forallb is_object (str_chars (str_take 10 s))
  | _ => false
  end.

(** Metadata the probe can log from beginning to end: a dict whose
    [description], if any, can be sliced and whose [columns], if any,
    can be listed. *)
Definition metadata_ok (v : JSON) : bool :=
  match v with
  | JObj kv =>
      sliceable (from_option id (JStr "N/A") (dict_get "description" kv))
      && from_option columns_ok true (dict_get "columns" kv)
  | _ => false
  end.

(** The reply to the probe's request, after [raise_for_status] and
    [json]. *)
Definition probe_reply (self : NYCDataFetcher) (env : Env) (w : World)
  : RequestException + JSON :=
  http_json (metadata_api env) (length (sent w)) (metadata_request self).

(** World [w'] is world [w] with lines appended to the log and nothing
    else changed. *)
Definition logged_only (w w' : World) : Prop :=
  sent w' = sent w /\ sleeps w' = sleeps w /\ files w' = files w /\
  exists lines, log w' = log w ++ lines.

(** Actions whose only effect is to append log lines. *)
Definition only_logs {A} (m : Py A) : Prop :=
  forall w, logged_only w (m w).2.

(** ** The rest of the script: [fetch_recent_data] and [main] *)

(** What the script takes from Python and pandas at run time. *)
Record Runtime : Type := mkRuntime {
  now_day : Z;                   (* datetime.now(), as a proleptic
                                    Gregorian day number (toordinal) *)
  strftime_ymd : Z -> string;    (* strftime("%Y-%m-%d") of the day with
                                    that number *)
  str_strip : string -> string;  (* str.strip() *)
  mkdir_data_dir : option string;
                                 (* data_dir.mkdir(parents=True,
                                    exist_ok=True): the text of its
                                    OSError, if it fails *)
  series_min : list (option JSON) -> PyException + JSON;  (* Series.min() *)
  series_max : list (option JSON) -> PyException + JSON   (* Series.max() *)
}.

(** Exceptions that can reach [main]; all derive from [Exception]. *)
Inductive ScriptError : Type :=
| PyError (e : PyException)
| DeltaOverflow (days : Z)     (* OverflowError of timedelta(days=...) *)
| DateOverflow                 (* OverflowError of datetime - timedelta *)
| EOFError                     (* input() at the end of the input *)
| DirectoryError (msg : string). (* OSError of data_dir.mkdir *)

(** [str(e)] *)
Definition error_text (e : ScriptError) : list Fragment :=
  match e with
  | PyError x => [Exc x]
  | DeltaOverflow days =>
      [Lit "days="; Num days; Lit "; must have magnitude <= 999999999"]
  | DateOverflow => [Lit "date value out of range"]
  | EOFError => [Lit "EOF when reading a line"]
  | DirectoryError msg => [Lit msg]
  end.

Definition raise_request {A} (r : Result RequestException A)
  : Result ScriptError A :=
  match r with
  | Returned a => Returned a
  | Raised x => Raised (PyError (RequestError x))
  | Running => Running
  end.

(** [NYCDataFetcher.fetch_recent_data]. A [timedelta] holds at most
    999999999 days, a date has a day number from 1 (year 1) to 3652059
    (year 9999). *)
Definition fetch_recent_data (rt : Runtime) (self : NYCDataFetcher)
    (env : Env) (fuel : nat) (days : Z) (w : World)
  : Result ScriptError Frame * World :=
  let end_date := now_day rt in
  if (999999999 <? Z.abs days)%Z then (Raised (DeltaOverflow days), w)
  else
    let start_date := (end_date - days)%Z in
    if ((start_date <? 1) || (3652059 <? start_date))%Z
    then (Raised DateOverflow, w)
    else
      let (r, w') :=
        fetch_sales_data self env fuel (strftime_ymd rt start_date)
          (Some (strftime_ymd rt end_date)) None w in
      (raise_request r, w').

(** What [print] and [input] write to the terminal. *)
Inductive Output : Type :=
| Print (msg : list Fragment)
| PrintFrame (df : Frame)
| Prompt (text : string).

(** The world of [main]: the world of the fetcher, the lines waiting on
    standard input and what was written to standard output. *)
Record Console : Type := mkConsole {
  world : World;
  stdin : list string;
  stdout : list Output
}.

Definition Script (A : Type) : Type :=
  Console -> Result ScriptError A * Console.

Definition script_ret {A} (a : A) : Script A := fun c => (Returned a, c).

Definition script_bind {A B} (m : Script A) (f : A -> Script B) : Script B :=
  fun c => match m c with
           | (Returned a, c') => f a c'
           | (Raised e, c') => (Raised e, c')
           | (Running, c') => (Running, c')
           end.

Notation "'sdo' x <- m ; k" := (script_bind m (fun x => k))
  (at level 10, x name, m at level 100, k at level 200).
Notation "'srun' m ; k" := (script_bind m (fun _ => k))
  (at level 10, m at level 100, k at level 200).

Definition script_raise {A} (e : ScriptError) : Script A :=
  fun c => (Raised e, c).

(** [print(...)] *)
Definition print (msg : list Fragment) : Script unit :=
  fun c => (Returned tt,
            {| world := world c; stdin := stdin c;
               stdout := stdout c ++ [Print msg] |}).

Definition print_frame (df : Frame) : Script unit :=
  fun c => (Returned tt,
            {| world := world c; stdin := stdin c;
               stdout := stdout c ++ [PrintFrame df] |}).

(** [input(prompt)] *)
Definition input (prompt : string) : Script string :=
  fun c =>
    let out := stdout c ++ [Prompt prompt] in
    match stdin c with
    | [] => (Raised EOFError,
             {| world := world c; stdin := []; stdout := out |})
    | line :: rest =>
        (Returned line, {| world := world c; stdin := rest; stdout := out |})
    end.

(** A call of [logger] from [main]. *)
Definition script_log (entry : LogEntry) : Script unit :=
  fun c => (Returned tt,
            {| world := logger entry (world c); stdin := stdin c;
               stdout := stdout c |}).

(** A call into the fetcher. *)
Definition call {A} (f : World -> Result ScriptError A * World) : Script A :=
  fun c => let (r, w') := f (world c) in
           (r, {| world := w'; stdin := stdin c; stdout := stdout c |}).

Definition call_py {A} (m : Py A) : Script A :=
  call (fun w => match m w with
                 | (inr a, w') => (Returned a, w')
                 | (inl e, w') => (Raised (PyError e), w')
                 end).

(** [try: body  except Exception as e: handler e] *)
Definition script_try {A} (body : Script A) (handler : ScriptError -> Script A)
  : Script A :=
  fun c => match body c with
           | (Raised e, c') => handler e c'
           | r => r
           end.

Definition nl : string := String (Ascii.ascii_of_nat 10) EmptyString.

(** ["=" * 60] *)
Definition rule60 : string :=
  "============================================================".

Fixpoint str_join (sep : string) (l : list string) : string :=
  match l with
  | [] => EmptyString
  | [x] => x
  | x :: l' => x +:+ sep +:+ str_join sep l'
  end.

Fixpoint index_of (c : string) (cols : list string) : option nat :=
  match cols with
  | [] => None
  | c' :: cols' =>
      if String.eqb c c' then Some 0
      else match index_of c cols' with
           | Some i => Some (S i)
           | None => None
           end
  end.

(** [df[c]]: the values of column [c], a [KeyError] without it. *)
Definition frame_getitem (df : Frame) (c : string)
  : PyException + list (option JSON) :=
  match index_of c (columns df) with
  | Some i => inr ((fun row => default None (row !! i)) <$> rows df)
  | None => inl KeyError
  end.

(** [df.head()] *)
Definition frame_head (df : Frame) : Frame :=
  {| columns := columns df; rows := take 5 (rows df) |}.

Definition script_lift {A} (r : PyException + A) : Script A :=
  fun c => match r with
           | inr a => (Returned a, c)
           | inl e => (Raised (PyError e), c)
           end.

(** The summary [main] prints after a fetch. *)
Definition print_summary (rt : Runtime) (df : Frame) : Script unit :=
  srun print [Lit (nl +:+ rule60)];
  srun print [Lit "DATA FETCH SUMMARY"];
  srun print [Lit rule60];
  srun print [Lit "Total Records: "; Num (frame_len df)];
  srun print [Lit "Columns: "; Num (Z.of_nat (length (columns df)))];
  srun print [Lit (nl +:+ "Column Names:" +:+ nl);
              Lit (str_join ", " (columns df))];
  sdo dates <- script_lift (frame_getitem df "sale_date");
  sdo lo <- script_lift (series_min rt dates);
  sdo dates' <- script_lift (frame_getitem df "sale_date");
  sdo hi <- script_lift (series_max rt dates');
  srun print [Lit (nl +:+ "Date Range: "); Val lo; Lit " to "; Val hi];
  srun print [Lit (nl +:+ "Sample Data:")];
  srun print_frame (frame_head df);
  srun print [Lit (nl +:+ "✅ Data fetch completed successfully!")];
  print [Lit "📁 Next step: Run 'python scripts/clean_data.py' to clean the data"].

(** The [if]/[elif] chain of [main]: the fetch the user chose. *)
Definition run_choice (rt : Runtime) (fetcher : NYCDataFetcher) (env : Env)
    (fuel : nat) (choice : string) : Script Frame :=
  if String.eqb choice "1" then
    srun script_log (INFO [Lit "Fetching last 12 months of data..."]);
    call (fetch_recent_data rt fetcher env fuel 365)
  else if String.eqb choice "2" then
    srun script_log (INFO [Lit "Fetching last 24 months of data..."]);
    call (fetch_recent_data rt fetcher env fuel 730)
  else if String.eqb choice "3" then
    srun script_log (INFO [Lit "Fetching data since 2019..."]);
    call (fun w =>
            let (r, w') :=
              fetch_sales_data fetcher env fuel "2019-01-01" None None w in
            (raise_request r, w'))
  else if String.eqb choice "4" then
    sdo a <- input "Enter start date (YYYY-MM-DD): ";
    let start := str_strip rt a in
    sdo b <- input "Enter end date (YYYY-MM-DD) [default: today]: ";
    let end_ := str_strip rt b in
    call (fun w =>
            let (r, w') :=
              fetch_sales_data fetcher env fuel start
                (if String.eqb end_ "" then None else Some end_) None w in
            (raise_request r, w'))
  else
    srun script_log
           (WARNING [Lit "Invalid choice, using default (last 24 months)"]);
    call (fetch_recent_data rt fetcher env fuel 730).

(** The handler of [main]: the error line and the hints. *)
Definition report_failure (e : ScriptError) : Script unit :=
  srun script_log (ERROR (Lit "Failed to fetch data: " :: error_text e));
  srun print [Lit (nl +:+ "⚠️ If you're hitting rate limits, consider:")];
  srun print [Lit "1. Register for a free Socrata app token: https://dev.socrata.com/"];
  srun print [Lit "2. Use a smaller date range"];
  print [Lit "3. Add delays between requests (already implemented)"].

(** [choice = input(...).strip() or "2"] *)
Definition choice_of (rt : Runtime) (answer : string) : string :=
  match str_strip rt answer with
  | EmptyString => "2"
  | s => s
  end.

(** [NYCDataFetcher()]: [__init__] creates the data directory, which
    may fail, and sets the fields. *)
Definition new_fetcher (rt : Runtime) : Script NYCDataFetcher :=
  match mkdir_data_dir rt with
  | Some msg => script_raise (DirectoryError msg)
  | None => script_ret NYCDataFetcher_init
  end.

(** [main] *)
Definition main (rt : Runtime) (env : Env) (fuel : nat) : Script unit :=
  srun print [Lit rule60];
  srun print [Lit "NYC Real Estate Data Fetcher"];
  srun print [Lit rule60];
  srun print [];
  sdo fetcher <- new_fetcher rt;
  srun print [Lit "Fetching dataset information..."];
  sdo _ <- call_py (get_dataset_info fetcher env);
  srun print [];
  srun print [Lit "Choose data fetching option:"];
  srun print [Lit "1. Last 12 months (fastest, good for testing)"];
  srun print [Lit "2. Last 24 months (recommended for analysis)"];
  srun print [Lit "3. Since 2019 (comprehensive, may take 5-10 minutes)"];
  srun print [Lit "4. Custom date range"];
  sdo answer <- input (nl +:+ "Enter choice (1-4) [default: 2]: ");
  let choice := choice_of rt answer in
  script_try
    (sdo df <- run_choice rt fetcher env fuel choice;
     print_summary rt df)
    report_failure.

(** What [main] has printed when it reads the choice. *)
Definition menu_output : list Output :=
  [ Print [Lit rule60];
    Print [Lit "NYC Real Estate Data Fetcher"];
    Print [Lit rule60];
    Print [];
    Print [Lit "Fetching dataset information..."];
    Print [];
    Print [Lit "Choose data fetching option:"];
    Print [Lit "1. Last 12 months (fastest, good for testing)"];
    Print [Lit "2. Last 24 months (recommended for analysis)"];
    Print [Lit "3. Since 2019 (comprehensive, may take 5-10 minutes)"];
    Print [Lit "4. Custom date range"];
    Prompt (nl +:+ "Enter choice (1-4) [default: 2]: ") ].

(** The four lines [main] prints after a failure. *)
Definition hints : list Output :=
  [ Print [Lit (nl +:+ "⚠️ If you're hitting rate limits, consider:")];
    Print [Lit "1. Register for a free Socrata app token: https://dev.socrata.com/"];
    Print [Lit "2. Use a smaller date range"];
    Print [Lit "3. Add delays between requests (already implemented)"] ].

(** The console once the choice has been read, [rest] being the input
    still waiting. *)
Definition after_menu (env : Env) (c : Console) (rest : list string)
  : Console :=
  {| world := (get_dataset_info NYCDataFetcher_init env (world c)).2;
     stdin := rest;
     stdout := stdout c ++ menu_output |}.

(** [days] days before now is a date Python can compute. *)
Definition window_valid (rt : Runtime) (days : Z) : Prop :=
  (Z.abs days <= 999999999 /\ 1 <= now_day rt - days <= 3652059)%Z.

(** Every call of the sales endpoint fails with [x]. *)
Definition endpoint_down (env : Env) (x : RequestException) : Prop :=
  forall n req, http_json (sales_api env) n req = inl x.

(** The line [main] logs for a failure. *)
Definition fetch_failure (e : ScriptError) : LogEntry :=
  ERROR (Lit "Failed to fetch data: " :: error_text e).

(** The page requests of a fetch over the window from [s] to [e]
    without app token, [k] of them. *)
Definition window_requests (self : NYCDataFetcher) (s e : string) (k : nat)
  : list Request :=
  (fun i => build_request self s e ∅ (Z.of_nat i * limit self)) <$> seq 0 k.

(** A clock for which the dates 365 and 730 days back exist: any date
    from the third year on. *)
Definition clock_valid (rt : Runtime) : Prop :=
  (731 <= now_day rt <= 3652059)%Z.

(** ** Samples for the concrete runs of the script *)

Definition is_space (c : Ascii.ascii) : bool :=
  let n := Ascii.nat_of_ascii c in
  (n =? 32) || ((9 <=? n) && (n <=? 13)).

Fixpoint lstrip (s : string) : string :=
  match s with
  | String c s' => if is_space c then lstrip s' else s
  | EmptyString => EmptyString
  end.

Fixpoint rstrip (s : string) : string :=
  match s with
  | String c s' =>
      match rstrip s' with
      | EmptyString => if is_space c then EmptyString
                       else String c EmptyString
      | r => String c r
      end
  | EmptyString => EmptyString
  end.

(** A runtime for the samples: the clock stands on 2026-01-31 (day
    739647), [strip] removes ASCII blanks, and the aggregates of a
    column are stood in for by its first value. *)
Definition sample_runtime : Runtime :=
  {| now_day := 739647;
     strftime_ymd := fun d =>
       if (d =? 739647)%Z then "2026-01-31"
       else if (d =? 739282)%Z then "2025-01-31"
       else if (d =? 738917)%Z then "2024-02-01"
       else "0001-01-01";
     str_strip := fun s => rstrip (lstrip s);
     mkdir_data_dir := None;
     series_min := fun col => inr (default JNull (mjoin (head col)));
     series_max := fun col => inr (default JNull (mjoin (head col))) |}.

Definition console0 (lines : list string) : Console :=
  {| world := world0; stdin := lines; stdout := [] |}.

(** An environment with the given sales transport and a metadata
    endpoint that serves [sample_metadata]. *)
Definition script_env (sales : Transport (list SaleRecord)) : Env :=
  {| sales_api := sales;
     metadata_api := fun _ _ =>
       inr {| status_code := 200; body := inr sample_metadata |};
     today := "2026-01-31";
     timestamp := "20260131_120000" |}.

(** A record without [sale_date]. *)
Definition undated_record : SaleRecord := [("borough", JStr "3")].

(** What [main] prints after a fetch whose summary goes through, [lo]
    and [hi] being the least and the greatest [sale_date]. *)
Definition summary_output (df : Frame) (lo hi : JSON) : list Output :=
  [ Print [Lit (nl +:+ rule60)];
    Print [Lit "DATA FETCH SUMMARY"];
    Print [Lit rule60];
    Print [Lit "Total Records: "; Num (frame_len df)];
    Print [Lit "Columns: "; Num (Z.of_nat (length (columns df)))];
    Print [Lit (nl +:+ "Column Names:" +:+ nl);
           Lit (str_join ", " (columns df))];
    Print [Lit (nl +:+ "Date Range: "); Val lo; Lit " to "; Val hi];
    Print [Lit (nl +:+ "Sample Data:")];
    PrintFrame (frame_head df);
    Print [Lit (nl +:+ "✅ Data fetch completed successfully!")];
    Print [Lit "📁 Next step: Run 'python scripts/clean_data.py' to clean the data"] ].

(** An environment whose metadata endpoint answers with status [status]
    and document [v]. *)
Definition status_env (status : Z) (v : JSON) : Env :=
  {| sales_api := always_failing Timeout;
     metadata_api := fun _ _ => inr {| status_code := status; body := inr v |};
     today := "2026-01-31";
     timestamp := "20260131_120000" |}.

(** A status for which [raise_for_status] raises: 4xx or 5xx. *)
Definition error_status (status : Z) : Prop := (400 <= status < 600)%Z.

(** ** CSV text: the csv writer of [to_csv] and the tokenizer of [read_csv] *)

Definition quotechar : Ascii.ascii := Ascii.ascii_of_nat 34.
Definition delimiter : Ascii.ascii := Ascii.ascii_of_nat 44.
Definition newline : Ascii.ascii := Ascii.ascii_of_nat 10.
Definition carriage : Ascii.ascii := Ascii.ascii_of_nat 13.
Definition nul : Ascii.ascii := Ascii.ascii_of_nat 0.

Fixpoint any_char (f : Ascii.ascii -> bool) (s : string) : bool :=
  match s with
  | EmptyString => false
  | String c s' => f c || any_char f s'
  end.

(** What pandas leaves open here: the text [to_csv] writes for the cell
    in row [i] and column [j] of a table ([str] of the value as the
    dtype of its column holds it, nothing for a missing value), and
    whether the csv module quotes a field for a carriage return in it
    (it does from Python 3.13 on; before that, only for the characters
    of the line terminator, here a line feed). *)
Record Pandas : Type := mkPandas {
  cell_text : Frame -> nat -> nat -> string;
  quotes_cr : bool
}.

(** [csv.writer], with the dialect [to_csv] sets: minimal quoting,
    quotes doubled, lines ended by a line feed. A field is quoted when
    it holds a delimiter, a quote or a line end. *)
Definition needs_quotes (cr : bool) (c : Ascii.ascii) : bool :=
  Ascii.eqb c delimiter || Ascii.eqb c quotechar || Ascii.eqb c newline
  || (cr && Ascii.eqb c carriage).

Fixpoint join_append_data (s : string) : string :=
  match s with
  | EmptyString => EmptyString
  | String c s' =>
      if Ascii.eqb c quotechar
      then String c (String c (join_append_data s'))
      else String c (join_append_data s')
  end.

Definition join_append (cr : bool) (field : string) : string :=
  if any_char (needs_quotes cr) field
  then String quotechar (join_append_data field
                         +:+ String quotechar EmptyString)
  else field.

Fixpoint join_rest (cr : bool) (fields : list string) : string :=
  match fields with
  | [] => String newline EmptyString
  | f :: fs => String delimiter (join_append cr f +:+ join_rest cr fs)
  end.

(** [writer.writerow(fields)]: a record of one empty field is written
    as a pair of quotes. *)
Definition writerow (cr : bool) (fields : list string) : string :=
  match fields with
  | [] => String newline EmptyString
  | [EmptyString] =>
      String quotechar (String quotechar (String newline EmptyString))
  | f :: fs => join_append cr f +:+ join_rest cr fs
  end.

(** The records [to_csv(path, index=False)] writes: the column labels,
    then the cells of each row. *)
Definition csv_rows (pd : Pandas) (table : Frame) : list (list string) :=
  columns table ::
  ((fun i => cell_text pd table i <$> seq 0 (length (columns table)))
     <$> seq 0 (length (rows table))).

Definition write_rows (cr : bool) (records : list (list string)) : string :=
  foldr (fun r text => writerow cr r +:+ text) EmptyString records.

Definition to_csv_text (pd : Pandas) (table : Frame) : string :=
  write_rows (quotes_cr pd) (csv_rows pd table).

(** The tokenizer of [read_csv] (pandas' C parser) with the defaults:
    comma, double quote, doubled quotes, blank lines skipped, no
    comment or escape character. *)
Inductive ParserState : Type :=
| START_RECORD
| WHITESPACE_LINE
| START_FIELD
| IN_FIELD
| IN_QUOTED_FIELD
| QUOTE_IN_QUOTED_FIELD
| EAT_CRNL
| EAT_CRNL_NOP.

Record Parser : Type := mkParser {
  tok_state : ParserState;
  tok_field : string;             (* the field, or blank line, in progress *)
  tok_line : list string;         (* fields of the line in progress *)
  tok_lines : list (list string)  (* lines read so far *)
}.

Definition parser0 : Parser :=
  {| tok_state := START_RECORD; tok_field := EmptyString;
     tok_line := []; tok_lines := [] |}.

Definition set_state (s : ParserState) (p : Parser) : Parser :=
  {| tok_state := s; tok_field := tok_field p;
     tok_line := tok_line p; tok_lines := tok_lines p |}.

Definition push_char (c : Ascii.ascii) (p : Parser) : Parser :=
  {| tok_state := tok_state p;
     tok_field := tok_field p +:+ String c EmptyString;
     tok_line := tok_line p; tok_lines := tok_lines p |}.

Definition drop_field (p : Parser) : Parser :=
  {| tok_state := tok_state p; tok_field := EmptyString;
     tok_line := tok_line p; tok_lines := tok_lines p |}.

Definition end_field (p : Parser) : Parser :=
  {| tok_state := tok_state p; tok_field := EmptyString;
     tok_line := tok_line p ++ [tok_field p]; tok_lines := tok_lines p |}.

Definition end_line (p : Parser) : Parser :=
  {| tok_state := START_RECORD; tok_field := tok_field p;
     tok_line := []; tok_lines := tok_lines p ++ [tok_line p] |}.

Definition is_whitespace (c : Ascii.ascii) : bool :=
  Ascii.eqb c (Ascii.ascii_of_nat 32) || Ascii.eqb c (Ascii.ascii_of_nat 9).

Definition in_field (c : Ascii.ascii) (p : Parser) : Parser :=
  if Ascii.eqb c newline then end_line (end_field p)
  else if Ascii.eqb c carriage then set_state EAT_CRNL (end_field p)
  else if Ascii.eqb c delimiter then set_state START_FIELD (end_field p)
  else set_state IN_FIELD (push_char c p).

Definition start_field (c : Ascii.ascii) (p : Parser) : Parser :=
  if Ascii.eqb c newline then end_line (end_field p)
  else if Ascii.eqb c carriage then set_state EAT_CRNL (end_field p)
  else if Ascii.eqb c quotechar then set_state IN_QUOTED_FIELD p
  else if Ascii.eqb c delimiter then set_state START_FIELD (end_field p)
  else set_state IN_FIELD (push_char c p).

(** At the start of a line: an empty line is skipped, and so is a line
    of spaces and tabs only, which is first collected and, if another
    character follows, read as the start of a field after all. *)
Definition start_record (c : Ascii.ascii) (p : Parser) : Parser :=
  if Ascii.eqb c newline then set_state START_RECORD p
  else if Ascii.eqb c carriage then set_state EAT_CRNL_NOP p
  else if is_whitespace c then set_state WHITESPACE_LINE (push_char c p)
  else start_field c p.

Definition whitespace_line (c : Ascii.ascii) (p : Parser) : Parser :=
  if Ascii.eqb c newline then set_state START_RECORD (drop_field p)
  else if Ascii.eqb c carriage then set_state EAT_CRNL_NOP (drop_field p)
  else if is_whitespace c then push_char c p
  else in_field c p.

Definition in_quoted_field (c : Ascii.ascii) (p : Parser) : Parser :=
  if Ascii.eqb c quotechar then set_state QUOTE_IN_QUOTED_FIELD p
  else push_char c p.

Definition quote_in_quoted_field (c : Ascii.ascii) (p : Parser) : Parser :=
  if Ascii.eqb c quotechar then set_state IN_QUOTED_FIELD (push_char c p)
  else if Ascii.eqb c delimiter then set_state START_FIELD (end_field p)
  else if Ascii.eqb c newline then end_line (end_field p)
  else if Ascii.eqb c carriage then set_state EAT_CRNL (end_field p)
  else set_state IN_FIELD (push_char c p).

Definition eat_crnl (c : Ascii.ascii) (p : Parser) : Parser :=
  if Ascii.eqb c newline then end_line p
  else if Ascii.eqb c delimiter
       then set_state START_FIELD (end_field (end_line p))
       else start_record c (end_line p).

Definition eat_crnl_nop (c : Ascii.ascii) (p : Parser) : Parser :=
  if Ascii.eqb c newline || Ascii.eqb c delimiter
  then set_state START_RECORD p
  else start_record c (set_state START_RECORD p).

Definition tokenize_step (p : Parser) (c : Ascii.ascii) : Parser :=
  match tok_state p with
  | START_RECORD => start_record c p
  | WHITESPACE_LINE => whitespace_line c p
  | START_FIELD => start_field c p
  | IN_FIELD => in_field c p
  | IN_QUOTED_FIELD => in_quoted_field c p
  | QUOTE_IN_QUOTED_FIELD => quote_in_quoted_field c p
  | EAT_CRNL => eat_crnl c p
  | EAT_CRNL_NOP => eat_crnl_nop c p
  end.

Fixpoint tokenize_bytes (p : Parser) (text : string) : Parser :=
  match text with
  | EmptyString => p
  | String c text' => tokenize_bytes (tokenize_step p c) text'
  end.

(** What [pd.read_csv] raises on a file of this script. *)
Inductive ReadError : Type :=
| FileNotFoundError
| EmptyDataError         (* "No columns to parse from file" *)
| ParserError.           (* "Error tokenizing data" *)

Definition parser_handle_eof (p : Parser) : ReadError + list (list string) :=
  match tok_state p with
  | START_RECORD | WHITESPACE_LINE | EAT_CRNL_NOP => inr (tok_lines p)
  | IN_QUOTED_FIELD => inl ParserError
  | START_FIELD | IN_FIELD | QUOTE_IN_QUOTED_FIELD =>
      inr (tok_lines (end_line (end_field p)))
  | EAT_CRNL => inr (tok_lines (end_line p))
  end.

(** A byte-order mark at the start of the text is skipped. *)
Definition check_for_bom (text : string) : string :=
  match text with
  | String c1 (String c2 (String c3 rest)) =>
      if Ascii.eqb c1 (Ascii.ascii_of_nat 239)
         && Ascii.eqb c2 (Ascii.ascii_of_nat 187)
         && Ascii.eqb c3 (Ascii.ascii_of_nat 191)
      then rest else text
  | _ => text
  end.

(** From the third line on, a line with more fields than the line
    before it (after that one was filled up to the length of its
    predecessor) is an error. *)
Definition bad_line (ls : list (list string)) : bool :=
  match ls with
  | header :: first :: rest =>
      existsb (fun l => Nat.max (length header) (length first) <? length l)
        rest
  | _ => false
  end.

(** A header field is taken from the tokenizer as a C string: it ends
    at a NUL. *)
Fixpoint c_string (s : string) : string :=
  match s with
  | EmptyString => EmptyString
  | String c s' =>
      if Ascii.eqb c nul then EmptyString
      else String c (c_string s')
  end.

(** The label [read_csv] gives the [i]-th header field: the field, or
    [Unnamed: i] when the field is empty. *)
Definition header_label (i : nat) (name : string) : string :=
  match c_string name with
  | EmptyString => "Unnamed: " +:+ NilEmpty.string_of_uint (Nat.to_uint i)
  | label => label
  end.

(** [pd.read_csv] on the text of a file, as far as the column labels
    and the number of rows of the frame read go: the first line that is
    not skipped is the header, each further one a row. The values of
    the cells, which pandas infers anew from the text, and the renaming
    of a label that occurs twice are not modelled. *)
Definition read_csv_text (text : string) : ReadError + (list string * nat) :=
  match parser_handle_eof (tokenize_bytes parser0 (check_for_bom text)) with
  | inl e => inl e
  | inr [] => inl EmptyDataError
  | inr (header :: data) =>
      if bad_line (header :: data) then inl ParserError
      else inr (imap header_label header, length data)
  end.

(** The text of the file at [path]. *)
Definition file_text (pd : Pandas) (path : string) (w : World)
  : option string :=
  to_csv_text pd <$> files w !! path.

(** [pd.read_csv(path)] *)
Definition read_csv (pd : Pandas) (path : string) (w : World)
  : ReadError + (list string * nat) :=
  match file_text pd path w with
  | None => inl FileNotFoundError
  | Some text => read_csv_text text
  end.

(** Texts that the tokenizer does not read as they were written. *)
Definition blank (s : string) : bool :=
  negb (any_char (fun c => negb (is_whitespace c)) s).

Definition has_cr (s : string) : bool := any_char (Ascii.eqb carriage) s.

Definition has_nul (s : string) : bool :=
  any_char (Ascii.eqb nul) s.

Definition has_bom (s : string) : bool :=
  match s with
  | String c1 (String c2 (String c3 _)) =>
      Ascii.eqb c1 (Ascii.ascii_of_nat 239)
      && Ascii.eqb c2 (Ascii.ascii_of_nat 187)
      && Ascii.eqb c3 (Ascii.ascii_of_nat 191)
  | _ => false
  end.

(** The pandas of the examples: a cell that holds a string is written
    as that string, a missing one as nothing (any other value as
    nothing, too: the examples have none). *)
Definition cell_string (table : Frame) (i j : nat) : string :=
  match rows table !! i with
  | Some row => match row !! j with
                | Some (Some (JStr s)) => s
                | _ => EmptyString
                end
  | None => EmptyString
  end.

Definition sample_pandas : Pandas :=
  {| cell_text := cell_string; quotes_cr := false |}.

(** A table whose file [read_csv] reads as it was written: it has a
    column, no label is empty or holds a NUL, the first label does not
    start with a byte-order mark, no text holds a carriage return that
    would stay unquoted and, if there is one column only, no text in it
    is made of spaces and tabs. *)
Definition reads_back (pd : Pandas) (table : Frame) : bool :=
  let records := csv_rows pd table in
  match columns table with
  | [] => false
  | first :: others =>
      forallb (fun c => negb (String.eqb c EmptyString) && negb (has_nul c))
        (columns table)
      && negb (has_bom first)
      && (quotes_cr pd
          || forallb (forallb (fun f => negb (has_cr f))) records)
      && match others with
         | [] => forallb (forallb (fun f => String.eqb f EmptyString
                                            || negb (blank f))) records
         | _ => true
         end
  end.

(** ** Notions used for the CSV round trip *)

(** The tokenizer after a field [f] of the line [line] that was ended
    by [d], a delimiter or a line feed. *)
Definition after_field (d : Ascii.ascii) (f : string) (line : list string)
    (lines : list (list string)) : Parser :=
  if Ascii.eqb d newline
  then {| tok_state := START_RECORD; tok_field := EmptyString;
          tok_line := []; tok_lines := lines ++ [line ++ [f]] |}
  else {| tok_state := START_FIELD; tok_field := EmptyString;
          tok_line := line ++ [f]; tok_lines := lines |}.

Definition field_end (d : Ascii.ascii) : Prop := d = newline \/ d = delimiter.

Definition plain_char (c : Ascii.ascii) : bool :=
  negb (Ascii.eqb c delimiter || Ascii.eqb c quotechar
        || Ascii.eqb c newline || Ascii.eqb c carriage).

(** A text without delimiter, quote or line end. *)
Definition plain (s : string) : bool :=
  negb (any_char (fun c => negb (plain_char c)) s).

(** A record that the tokenizer reads as [writerow] wrote it. *)
Definition record_ok (cr : bool) (fields : list string) : Prop :=
  fields <> [] /\
  (cr = false -> forall f, f ∈ fields -> has_cr f = false) /\
  (forall f, fields = [f] -> f = EmptyString \/ blank f = false).

(** ** Writes that fail *)

(** The paths at which [to_csv] cannot open its file (missing
    directory, no permission, a directory of that name) and raises
    [OSError]. *)
Record Disk : Type := mkDisk {
  unwritable : string -> bool
}.

(** What [fetch_sales_data] raises when writes may fail. *)
Inductive FetchError : Type :=
| RequestFailure (x : RequestException)
| WriteFailure (path : string).       (* OSError of to_csv(path) *)

(** [NYCDataFetcher.fetch_sales_data] on a disk where a write may fail:
    the same statements as in [fetch_sales_data], with each [to_csv]
    raising at an unwritable path and leaving the files as they are.
    A write that fails after the file was opened is not modelled. As in
    [fetch_sales_data], a page is an array of records: what [extend]
    and [pd.DataFrame] do with a reply of another JSON type (a
    [TypeError] for a number, for one) is not modelled. *)
Definition fetch_sales_data_io (disk : Disk) (self : NYCDataFetcher)
    (env : Env) (fuel : nat) (start_date : string)
    (end_date : option string) (app_token : option string) (w : World)
  : Result FetchError Frame * World :=
  let end_date := resolve_end_date env end_date in
  let w := logger (INFO [Lit "Fetching NYC property sales data from ";
                         Lit start_date; Lit " to "; Lit end_date]) w in
  let w := logger (INFO [Lit "Using Socrata Open Data API"]) w in
  let hdrs := build_headers app_token in
  let w := if truthy app_token
           then logger (INFO [Lit "Using app token for higher rate limits"]) w
           else w in
  match while_true self env start_date end_date hdrs fuel w locals0 with
  | (Exhausted _, w) => (Running, w)
  | (Propagated e, w) => (Raised (RequestFailure e), w)
  | (Finished st, w) =>
      let df := DataFrame (all_data st) in
      let w := logger (INFO [Lit "Successfully fetched "; Num (frame_len df);
                             Lit " total records"]) w in
      let filepath := archive_path self env start_date end_date in
      if unwritable disk filepath then (Raised (WriteFailure filepath), w)
      else
        let w := to_csv filepath df w in
        let w := logger (INFO [Lit "Raw data saved to: "; Lit filepath]) w in
        if unwritable disk (standard_path self)
        then (Raised (WriteFailure (standard_path self)), w)
        else
          let w := to_csv (standard_path self) df w in
          let w := logger (INFO [Lit "Data also saved as: ";
                                 Lit (standard_path self)]) w in
          (Returned df, w)
  end.

(** A disk on which every path but [path] can be written. *)
Definition disk_without (path : string) : Disk :=
  {| unwritable := fun p => String.eqb p path |}.

(** A disk on which every path can be written. *)
Definition sound_disk : Disk := {| unwritable := fun _ => false |}.

Definition request_failure {A} (r : Result RequestException A)
  : Result FetchError A :=
  match r with
  | Returned a => Returned a
  | Raised x => Raised (RequestFailure x)
  | Running => Running
  end.

(** ** The loop, one pass at a time *)

Section loop_facts.
Context (self : NYCDataFetcher) (env : Env).
Context (start_date end_date : string) (hdrs : gmap string string).

Local Abbreviation body := (loop_body self env start_date end_date hdrs).
Local Abbreviation loop := (while_true self env start_date end_date hdrs).
Local Abbreviation request := (build_request self start_date end_date hdrs).
Local Abbreviation P := (limit self).
Local Abbreviation reply := (reply_at self env start_date end_date hdrs).
Local Abbreviation pages := (page_from self env start_date end_date hdrs).
Local Abbreviation is_last := (last_page self).

Lemma last_page_spec data :
  is_last data = true <-> data = [] \/ (Z.of_nat (length data) < P)%Z.
Proof.
  destruct data as [|r data]; simpl.
  - split; auto.
  - rewrite Z.ltb_lt. split; [auto | intros [H | H]; [discriminate | exact H]].
Qed.

Lemma loop_body_sent w st :
  sent (body w st).2 = sent w ++ [request (offset st)].
Proof.
  unfold loop_body; simpl.
  destruct (http_json _ _ _) as [e | [|r data]]; simpl;
    repeat match goal with |- context [if ?b then _ else _] => destruct b end;
    reflexivity.
Qed.

Lemma loop_body_files w st : files (body w st).2 = files w.
Proof.
  unfold loop_body; simpl.
  destruct (http_json _ _ _) as [e | [|r data]]; simpl;
    repeat match goal with |- context [if ?b then _ else _] => destruct b end;
    reflexivity.
Qed.

(** What the pass decides, by the reply it got. *)
Lemma loop_body_ctl w st :
  (body w st).1 =
    match reply w st with
    | inr data =>
        if is_last data then
          Break (match data with
                 | [] => st
                 | _ => {| all_data := all_data st ++ data;
                           offset := offset st;
                           total_fetched :=
                             total_fetched st + Z.of_nat (length data) |}
                 end)
        else Continue {| all_data := all_data st ++ data;
                         offset := offset st + P;
                         total_fetched :=
                           total_fetched st + Z.of_nat (length data) |}
    | inl e => if (0 <? offset st)%Z then Break st else Raise e
    end.
Proof.
  unfold loop_body, reply_at; simpl.
  destruct (http_json _ _ _) as [e | [|r data]]; simpl;
    repeat match goal with |- context [if ?b then _ else _] => destruct b end;
    reflexivity.
Qed.

Lemma page_from_0 w st :
  pages w st 0 =
    reply w st.
Proof.
  unfold page_from, reply_at. rewrite Nat.add_0_r.
  replace (offset st + Z.of_nat 0 * P)%Z with (offset st) by lia.
  reflexivity.
Qed.

(** A full page: the loop goes on with the offset advanced by [P]. *)
Lemma loop_body_continue w st data :
  reply w st = inr data -> is_last data = false ->
  exists st' w',
    body w st = (Continue st', w') /\
    offset st' = (offset st + P)%Z /\
    all_data st' = all_data st ++ data /\
    sent w' = sent w ++ [request (offset st)] /\
    files w' = files w.
Proof.
  intros Hr Hl.
  pose proof (loop_body_ctl w st) as Hc.
  pose proof (loop_body_sent w st) as Hs.
  pose proof (loop_body_files w st) as Hf.
  rewrite Hr, Hl in Hc.
  destruct (body w st) as [c w']; simpl in *; subst c.
  eexists _, w'; repeat split; eauto.
Qed.

(** An empty or short page: the loop is left with the page appended. *)
Lemma loop_body_break w st data :
  reply w st = inr data -> is_last data = true ->
  exists st' w',
    body w st = (Break st', w') /\
    all_data st' = all_data st ++ data /\
    sent w' = sent w ++ [request (offset st)] /\
    files w' = files w.
Proof.
  intros Hr Hl.
  pose proof (loop_body_ctl w st) as Hc.
  pose proof (loop_body_sent w st) as Hs.
  pose proof (loop_body_files w st) as Hf.
  rewrite Hr, Hl in Hc.
  destruct (body w st) as [c w']; simpl in *; subst c.
  eexists _, w'; repeat split; eauto.
  destruct data; simpl; [by rewrite app_nil_r | reflexivity].
Qed.

(** A failed request: fatal at offset 0, the end of the loop later. *)
Lemma loop_body_failure w st e :
  reply w st = inl e ->
  exists w',
    body w st = (if (0 <? offset st)%Z then Break st else Raise e, w') /\
    sent w' = sent w ++ [request (offset st)] /\
    files w' = files w.
Proof.
  intros Hr.
  pose proof (loop_body_ctl w st) as Hc.
  pose proof (loop_body_sent w st) as Hs.
  pose proof (loop_body_files w st) as Hf.
  rewrite Hr in Hc.
  destruct (body w st) as [c w']; simpl in *; subst c.
  exists w'; repeat split; eauto.
Qed.

Lemma page_from_shift w st w' st' i :
  offset st' = (offset st + P)%Z ->
  sent w' = sent w ++ [request (offset st)] ->
  pages w' st' i = pages w st (S i).
Proof.
  intros Ho Hs. unfold page_from. rewrite Ho, Hs, length_app. simpl.
  f_equal; [lia | f_equal; lia].
Qed.

(** The loop never touches a file. *)
Lemma while_true_files fuel : forall w st, files (loop fuel w st).2 = files w.
Proof.
  induction fuel as [|fuel IH]; intros w st; simpl; [reflexivity |].
  pose proof (loop_body_files w st) as Hf.
  destruct (body w st) as [[st' | st' | e] w']; simpl in *;
    [rewrite IH |..]; exact Hf.
Qed.

(** Once the loop has ended, more fuel changes nothing. *)
Lemma while_true_mono fuel : forall w st r w',
  loop fuel w st = (r, w') -> (forall st', r <> Exhausted st') ->
  forall fuel', fuel <= fuel' -> loop fuel' w st = (r, w').
Proof.
  induction fuel as [|fuel IH]; intros w st r w' Hrun Hr fuel' Hle.
  - simpl in Hrun. injection Hrun as <- <-. by destruct (Hr st).
  - destruct fuel' as [|fuel']; [lia |]. simpl in *.
    destruct (body w st) as [[st1 | st1 | e] w1]; try exact Hrun.
    eapply IH; eauto. lia.
Qed.

(** The requests of a run: offsets [offset st], [offset st + P], ... *)
Lemma while_true_sent fuel : forall w st,
  exists k, k <= fuel /\
    sent (loop fuel w st).2 =
      sent w ++ ((fun i => request (offset st + Z.of_nat i * P)) <$> seq 0 k).
Proof.
  induction fuel as [|fuel IH]; intros w st; simpl.
  - exists 0. split; [lia | by rewrite app_nil_r].
  - pose proof (loop_body_ctl w st) as Hc.
    pose proof (loop_body_sent w st) as Hs.
    assert (Hone : sent w ++ [request (offset st)] =
              sent w ++ ((fun i => request (offset st + Z.of_nat i * P))
                           <$> seq 0 1)).
    { simpl. do 3 f_equal. lia. }
    destruct (body w st) as [[st' | st' | e] w'] eqn:Hb; simpl in *.
    + destruct (IH w' st') as (k & Hk & Hsent).
      exists (S k). split; [lia |].
      rewrite Hsent, Hs. rewrite <- app_assoc. f_equal.
      simpl. f_equal; [f_equal; lia |].
      rewrite <- fmap_S_seq, <- list_fmap_compose.
      apply list_fmap_ext. intros _ i _. simpl.
      destruct (reply w st) as [e | data].
      * destruct (0 <? offset st)%Z; discriminate.
      * destruct (is_last data); [discriminate |].
        injection Hc as ->. simpl. f_equal. lia.
    + exists 1. split; [lia |]. by rewrite Hs.
    + exists 1. split; [lia |]. by rewrite Hs.
Qed.

(** As long as full pages come back, the loop keeps running. *)
Lemma while_true_running k : forall w st,
  (forall i, i < k ->
     exists d, pages w st i = inr d /\ is_last d = false) ->
  exists st' w',
    loop k w st = (Exhausted st', w') /\
    length (sent w') = length (sent w) + k /\
    offset st' = (offset st + Z.of_nat k * P)%Z.
Proof.
  induction k as [|k IH]; intros w st Hfull; simpl.
  - exists st, w. repeat split; lia.
  - destruct (Hfull 0) as (d & Hd & Hl); [lia |].
    rewrite page_from_0 in Hd.
    destruct (loop_body_continue w st d Hd Hl)
      as (st1 & w1 & -> & Ho & _ & Hs & _).
    destruct (IH w1 st1) as (st' & w' & Hrun & Hlen & Hoff).
    { intros i Hi. rewrite (page_from_shift w st) by assumption.
      apply Hfull. lia. }
    exists st', w'. rewrite Hrun, Hlen, Hoff, Ho, Hs, length_app. simpl.
    repeat split; lia.
Qed.

(** Full pages followed by one empty or short page: the loop ends right
    after that page, having sent [k + 1] requests. *)
Lemma while_true_finishes k : forall w st dk fuel,
  (forall i, i < k ->
     exists d, pages w st i = inr d /\ is_last d = false) ->
  pages w st k = inr dk -> is_last dk = true -> k < fuel ->
  exists st' w',
    loop fuel w st = (Finished st', w') /\
    length (sent w') = length (sent w) + S k.
Proof.
  induction k as [|k IH]; intros w st dk fuel Hfull Hk Hlast Hfuel;
    (destruct fuel as [|fuel]; [lia |]); simpl.
  - rewrite page_from_0 in Hk.
    destruct (loop_body_break w st dk Hk Hlast) as (st' & w' & -> & _ & Hs & _).
    exists st', w'. rewrite Hs, length_app. simpl. split; [done | lia].
  - destruct (Hfull 0) as (d & Hd & Hl); [lia |].
    rewrite page_from_0 in Hd.
    destruct (loop_body_continue w st d Hd Hl)
      as (st1 & w1 & -> & Ho & _ & Hs & _).
    destruct (IH w1 st1 dk fuel) as (st' & w' & Hrun & Hlen).
    { intros i Hi. rewrite (page_from_shift w st) by assumption.
      apply Hfull. lia. }
    { by rewrite (page_from_shift w st). }
    { exact Hlast. }
    { lia. }
    exists st', w'. rewrite Hrun, Hlen, Hs, length_app. simpl.
    split; [done | lia].
Qed.

(** When no request fails, a loop that ended saw an empty or short page. *)
Lemma while_true_ended fuel : forall w st r w',
  (forall n req, exists d, http_json (sales_api env) n req = inr d) ->
  loop fuel w st = (r, w') -> (forall st', r <> Exhausted st') ->
  exists k d, k < fuel /\ pages w st k = inr d /\ is_last d = true.
Proof.
  induction fuel as [|fuel IH]; intros w st r w' Hok Hrun Hr; simpl in Hrun.
  - injection Hrun as <- <-. by destruct (Hr st).
  - destruct (Hok (length (sent w)) (request (offset st))) as [d Hd].
    fold (reply w st) in Hd.
    destruct (is_last d) eqn:Hl.
    + exists 0, d. rewrite page_from_0. repeat split; [lia | done..].
    + destruct (loop_body_continue w st d Hd Hl)
        as (st1 & w1 & Hb & Ho & _ & Hs & _).
      rewrite Hb in Hrun.
      destruct (IH w1 st1 r w' Hok Hrun Hr) as (k & dk & Hk & Hpk & Hlk).
      exists (S k), dk. rewrite <- (page_from_shift w st w1 st1) by assumption.
      repeat split; [lia | done..].
Qed.
End loop_facts.

(** ** The loop against a well-behaved endpoint *)

Section socrata_facts.
Context (self : NYCDataFetcher) (env : Env).
Context (start_date end_date : string) (hdrs : gmap string string).
Context (db : list SaleRecord).
Hypothesis Hapi : sales_api env = socrata db.
Hypothesis Hlimit : (0 < limit self)%Z.

Local Abbreviation loop := (while_true self env start_date end_date hdrs).
Local Abbreviation P := (limit self).

Lemma socrata_reply w st :
  reply_at self env start_date end_date hdrs w st =
    inr (take (Z.to_nat P) (drop (Z.to_nat (offset st)) db)).
Proof. unfold reply_at, http_json. rewrite Hapi. reflexivity. Qed.

(** From offset [o] the loop fetches [db[o:]] in
    [len(db[o:]) / P + 1] requests. *)
Lemma socrata_loop n : forall w st fuel,
  (0 <= offset st)%Z ->
  length (drop (Z.to_nat (offset st)) db) = n ->
  n / Z.to_nat P < fuel ->
  exists st' w',
    loop fuel w st = (Finished st', w') /\
    all_data st' = all_data st ++ drop (Z.to_nat (offset st)) db /\
    length (sent w') = length (sent w) + S (n / Z.to_nat P).
Proof.
  induction n as [n IH] using lt_wf_ind.
  intros w st fuel Hoff Hn Hfuel.
  destruct fuel as [|fuel]; [lia |]. simpl.
  set (rest := drop (Z.to_nat (offset st)) db) in *.
  set (p := Z.to_nat P) in *.
  assert (Hp : 0 < p) by (unfold p; lia).
  pose proof (socrata_reply w st) as Hr. fold rest p in Hr.
  destruct (last_page self (take p rest)) eqn:Hl.
  - destruct (loop_body_break _ _ _ _ _ w st _ Hr Hl)
      as (st' & w' & -> & Ha & Hs & _).
    apply last_page_spec in Hl.
    assert (Hshort : n < p).
    { destruct Hl as [Hl | Hl].
      - apply (f_equal length) in Hl. rewrite length_take in Hl.
        simpl in Hl. lia.
      - rewrite length_take in Hl. unfold p in *. lia. }
    exists st', w'. rewrite Ha, Hs, length_app, take_ge by lia.
    rewrite Nat.div_small by lia. simpl. repeat split; lia.
  - destruct (loop_body_continue _ _ _ _ _ w st _ Hr Hl)
      as (st1 & w1 & -> & Ho & Ha & Hs & _).
    assert (Hfull : p <= n).
    { destruct (decide (p <= n)) as [|Hlt]; [done |].
      assert (Hl' : last_page self (take p rest) = true); [| congruence].
      apply last_page_spec. right. rewrite length_take. unfold p in *. lia. }
    assert (Hrest1 : drop (Z.to_nat (offset st1)) db = drop p rest).
    { rewrite Ho. unfold rest, p. rewrite drop_drop. f_equal. lia. }
    assert (Hdiv : n / p = S ((n - p) / p)).
    { replace n with ((n - p) + 1 * p) at 1 by lia.
      rewrite Nat.div_add by lia. lia. }
    destruct (IH (n - p) ltac:(lia) w1 st1 fuel)
      as (st' & w' & Hrun & Ha' & Hs').
    + lia.
    + rewrite Hrest1, length_drop. lia.
    + fold p. lia.
    + exists st', w'. rewrite Hrun, Ha', Ha, Hrest1, Hs', Hs, length_app.
      rewrite <- app_assoc, take_drop. fold p. rewrite Hdiv. simpl.
      repeat split; lia.
Qed.
End socrata_facts.

(** ** [fetch_sales_data] around its loop *)

Lemma loop_entry_sent s e t w : sent (loop_entry s e t w) = sent w.
Proof. unfold loop_entry. by destruct (truthy t). Qed.

Lemma loop_entry_files s e t w : files (loop_entry s e t w) = files w.
Proof. unfold loop_entry. by destruct (truthy t). Qed.

Lemma nth_page_from self env s e t w k :
  nth_page self env s e t w k =
    page_from self env s (resolve_end_date env e) (build_headers t)
      (loop_entry s (resolve_end_date env e) t w) locals0 k.
Proof. unfold nth_page, page_from. by rewrite loop_entry_sent. Qed.

(** The result and the files of a call, from the way its loop ended. *)
Lemma fetch_sales_data_result self env fuel s e t w :
  (fetch_sales_data self env fuel s e t w).1 =
    match (fetch_loop self env fuel s e t w).1 with
    | Exhausted _ => Running
    | Finished st => Returned (DataFrame (all_data st))
    | Propagated x => Raised x
    end.
Proof.
  unfold fetch_sales_data, fetch_loop, loop_entry.
  by destruct (while_true _ _ _ _ _ _ _ _) as [[st | st | x] w'].
Qed.

Lemma fetch_sales_data_sent self env fuel s e t w :
  sent (fetch_sales_data self env fuel s e t w).2 =
    sent (fetch_loop self env fuel s e t w).2.
Proof.
  unfold fetch_sales_data, fetch_loop, loop_entry.
  by destruct (while_true _ _ _ _ _ _ _ _) as [[st | st | x] w'].
Qed.

Lemma fetch_sales_data_files self env fuel s e t w :
  files (fetch_sales_data self env fuel s e t w).2 =
    match (fetch_loop self env fuel s e t w).1 with
    | Finished st =>
        <[standard_path self := DataFrame (all_data st)]>
          (<[archive_path self env s (resolve_end_date env e) :=
               DataFrame (all_data st)]> (files w))
    | _ => files w
    end.
Proof.
  unfold fetch_sales_data, fetch_loop.
  pose proof (while_true_files self env s (resolve_end_date env e)
                (build_headers t) fuel
                (loop_entry s (resolve_end_date env e) t w) locals0) as Hf.
  rewrite loop_entry_files in Hf. unfold loop_entry in Hf.
  destruct (while_true _ _ _ _ _ _ _ _) as [[st | st | x] w']; simpl in *;
    by rewrite Hf.
Qed.

(** ** Failures and the empty result set *)


(** C4. If the first request fails, the call raises that very error; it
    returns no frame. *)
Theorem fetch_first_page_failure self env fuel s e t w x :
  nth_page self env s e t w 0 = inl x ->
  0 < fuel ->
  (fetch_sales_data self env fuel s e t w).1 = Raised x /\
  forall df, (fetch_sales_data self env fuel s e t w).1 <> Returned df.
Proof.
  intros Hpage Hfuel.
  assert (Hres : (fetch_sales_data self env fuel s e t w).1 = Raised x).
  { rewrite fetch_sales_data_result. unfold fetch_loop.
    rewrite nth_page_from, page_from_0 in Hpage.
    destruct fuel as [|fuel]; [lia |]. simpl.
    by destruct (loop_body_failure _ _ _ _ _ _ _ _ Hpage) as (w' & -> & _). }
  split; [exact Hres | intros df; by rewrite Hres].
Qed.


(** ** Counting requests *)

Lemma ceil_div_exact n p :
  (0 < p)%Z -> (n mod p = 0)%Z -> ceil_div n p = (n / p)%Z.
Proof.
  intros Hp Hm. unfold ceil_div.
  pose proof (Z.div_mod n p ltac:(lia)) as Hn.
  symmetry. apply (Z.div_unique _ _ _ (p - 1)%Z); lia.
Qed.

Lemma ceil_div_inexact n p :
  (0 < p)%Z -> (n mod p <> 0)%Z -> ceil_div n p = (n / p + 1)%Z.
Proof.
  intros Hp Hm. unfold ceil_div.
  pose proof (Z.div_mod n p ltac:(lia)) as Hn.
  pose proof (Z.mod_pos_bound n p Hp) as Hb.
  symmetry. apply (Z.div_unique _ _ _ (n mod p - 1)%Z); lia.
Qed.

Lemma socrata_succeeds env db :
  sales_api env = socrata db -> all_requests_succeed env.
Proof. intros H n req. unfold http_json. rewrite H. simpl. eauto. Qed.

Lemma socrata_nth_page self env db s e t w k :
  sales_api env = socrata db ->
  nth_page self env s e t w k =
    inr (take (Z.to_nat (limit self))
           (drop (Z.to_nat (Z.of_nat k * limit self)) db)).
Proof. intros H. unfold nth_page, http_json. rewrite H. reflexivity. Qed.

Lemma issued_length w w' n :
  length (sent w') = length (sent w) + n -> length (issued w w') = n.
Proof. intros H. unfold issued. rewrite length_drop. lia. Qed.

(** Against a well-behaved endpoint holding [db] the call returns all of
    [db] after [len(db) / P + 1] requests. *)
Lemma socrata_fetch self env db fuel s e t w :
  sales_api env = socrata db -> (0 < limit self)%Z ->
  length db / Z.to_nat (limit self) < fuel ->
  (fetch_sales_data self env fuel s e t w).1 = Returned (DataFrame db) /\
  length (issued w (fetch_sales_data self env fuel s e t w).2) =
    S (length db / Z.to_nat (limit self)).
Proof.
  intros Hapi Hp Hfuel.
  destruct (socrata_loop self env s (resolve_end_date env e) (build_headers t)
              db Hapi Hp (length db)
              (loop_entry s (resolve_end_date env e) t w) locals0 fuel)
    as (st & w' & Hrun & Ha & Hs); [done.. |].
  rewrite loop_entry_sent in Hs. simpl in Ha.
  split.
  - rewrite fetch_sales_data_result. unfold fetch_loop.
    rewrite Hrun. simpl. by rewrite Ha.
  - apply issued_length. rewrite fetch_sales_data_sent. unfold fetch_loop.
    by rewrite Hrun.
Qed.

Lemma nat_div_to_Z n p :
  (0 < p)%Z -> Z.of_nat (n / Z.to_nat p) = (Z.of_nat n / p)%Z.
Proof. intros Hp. rewrite Nat2Z.inj_div, Z2Nat.id by lia. reflexivity. Qed.

(** C1, as the code has it. Against an endpoint holding [N] records in
    range, with page size [P > 0] and no failing request, the call
    returns all records after exactly [N / P + 1] requests (rounded
    down): that is [ceil(N / P)] when [P] does not divide [N], and
    [ceil(N / P) + 1] when it does, which covers the single request for
    [N = 0]. *)
Theorem fetch_request_count self env db fuel s e t w :
  sales_api env = socrata db ->
  (0 < limit self)%Z ->
  (Z.of_nat (length db) / limit self < Z.of_nat fuel)%Z ->
  let N := Z.of_nat (length db) in
  let P := limit self in
  let out := fetch_sales_data self env fuel s e t w in
  let count := Z.of_nat (length (issued w out.2)) in
  out.1 = Returned (DataFrame db) /\
  count = (N / P + 1)%Z /\
  ((N mod P)%Z <> 0%Z -> count = ceil_div N P) /\
  ((N mod P)%Z = 0%Z -> count = (ceil_div N P + 1)%Z) /\
  (N = 0%Z -> count = 1%Z).
Proof.
  intros Hapi Hp Hfuel N P out count.
  destruct (socrata_fetch self env db fuel s e t w Hapi Hp) as [Hres Hcount].
  { apply Nat2Z.inj_lt. by rewrite nat_div_to_Z. }
  assert (Hc : count = (N / P + 1)%Z).
  { unfold count, out. rewrite Hcount, Nat2Z.inj_succ, nat_div_to_Z by done.
    unfold N, P. lia. }
  repeat split; [done.. | | |].
  - intros Hm. by rewrite ceil_div_inexact.
  - intros Hm. by rewrite ceil_div_exact.
  - intros HN. rewrite Hc, HN. rewrite Z.div_0_l by (unfold P; lia). done.
Qed.

(** C1 fails as stated: with the page size 50000 of [__init__] and
    N = 50000 records in range, all requests succeeding, the call issues
    two requests, while ceil(N / P) = 1. *)
Lemma fetch_request_count_exact_multiple :
  let db := replicate (Z.to_nat 50000) sample_record in
  let out := fetch_sales_data NYCDataFetcher_init (sample_env (socrata db)) 3
               "2019-01-01" None None world0 in
  let count := Z.of_nat (length (issued world0 out.2)) in
  (0 < Z.of_nat (length db))%Z /\
  out.1 = Returned (DataFrame db) /\
  count = 2%Z /\
  count <> ceil_div (Z.of_nat (length db)) (limit NYCDataFetcher_init).
Proof.
  intros db out count.
  assert (Hlen : length db = Z.to_nat 50000) by apply length_replicate.
  assert (Hdiv : length db / Z.to_nat (limit NYCDataFetcher_init) = 1).
  { rewrite Hlen. apply Nat.div_same. simpl. lia. }
  destruct (socrata_fetch NYCDataFetcher_init (sample_env (socrata db)) db 3
              "2019-01-01" None None world0 eq_refl) as [Hres Hcount].
  { simpl. lia. }
  { rewrite Hdiv. lia. }
  rewrite Hdiv in Hcount.
  assert (Hc : count = 2%Z) by (unfold count, out; rewrite Hcount; lia).
  split; [lia |]. split; [done |]. split; [done |].
  rewrite Hc, Hlen, ceil_div_exact; simpl; try lia.
  - rewrite Z2Nat.id by lia. rewrite Z.div_same; lia.
  - rewrite Z2Nat.id by lia. apply Z.mod_same. lia.
Qed.

(** ** Termination *)

(** When no request fails, an empty or short page somewhere ahead makes
    the loop end. *)
Lemma while_true_ends self env s e hdrs k : forall w st dk,
  all_requests_succeed env ->
  page_from self env s e hdrs w st k = inr dk ->
  last_page self dk = true ->
  exists fuel st' w',
    while_true self env s e hdrs fuel w st = (Finished st', w').
Proof.
  induction k as [|k IH]; intros w st dk Hok Hk Hlast.
  - rewrite page_from_0 in Hk.
    destruct (loop_body_break _ _ _ _ _ _ _ _ Hk Hlast)
      as (st' & w' & Hb & _).
    exists 1, st', w'. simpl. by rewrite Hb.
  - destruct (Hok (length (sent w)) (build_request self s e hdrs (offset st)))
      as [d Hd].
    fold (reply_at self env s e hdrs w st) in Hd.
    destruct (last_page self d) eqn:Hl.
    + destruct (loop_body_break _ _ _ _ _ _ _ _ Hd Hl)
        as (st' & w' & Hb & _).
      exists 1, st', w'. simpl. by rewrite Hb.
    + destruct (loop_body_continue _ _ _ _ _ _ _ _ Hd Hl)
        as (st1 & w1 & Hb & Ho & _ & Hs & _).
      rewrite <- (page_from_shift _ _ _ _ _ _ _ w1 st1 k Ho Hs) in Hk.
      destruct (IH w1 st1 dk Hok Hk Hlast) as (fuel & st' & w' & Hrun).
      exists (S fuel), st', w'. simpl. by rewrite Hb.
Qed.

Lemma full_page_not_last self data :
  (0 < limit self)%Z -> Z.of_nat (length data) = limit self ->
  last_page self data = false.
Proof.
  intros Hp Hlen. destruct data; simpl in *; [lia |].
  apply Z.ltb_ge. lia.
Qed.

(** After [k] full pages the call is still running, [k] requests sent. *)
Lemma fetch_running self env s e t w k :
  (0 < limit self)%Z ->
  (forall i, i < k ->
     exists data, nth_page self env s e t w i = inr data /\
                  Z.of_nat (length data) = limit self) ->
  (fetch_sales_data self env k s e t w).1 = Running /\
  length (issued w (fetch_sales_data self env k s e t w).2) = k.
Proof.
  intros Hp Hfull.
  destruct (while_true_running self env s (resolve_end_date env e)
              (build_headers t) k
              (loop_entry s (resolve_end_date env e) t w) locals0)
    as (st & w' & Hrun & Hs & _).
  { intros i Hi. destruct (Hfull i Hi) as (d & Hd & Hlen).
    exists d. rewrite <- nth_page_from. split; [done |].
    by apply full_page_not_last. }
  rewrite loop_entry_sent in Hs. split.
  - rewrite fetch_sales_data_result. unfold fetch_loop. by rewrite Hrun.
  - apply issued_length. rewrite fetch_sales_data_sent. unfold fetch_loop.
    by rewrite Hrun.
Qed.

(** C2. Assuming every request succeeds:
    - the call terminates if and only if some page request of the run
      returns an empty page or a page of fewer than [limit] records;
    - after a page of exactly [limit] records (all earlier ones being
      full too) the loop is still running, whatever the server holds;
    - against an endpoint holding [m * limit] records, [m > 0], the
      [m]-th page is full and exhausts the data, the call has not ended
      after [m] requests, request [m + 1] returns the empty page, and
      the call returns after exactly [m + 1] requests. *)
Theorem fetch_termination self env s e t w :
  all_requests_succeed env ->
  (terminates self env s e t w <->
   exists k data,
     nth_page self env s e t w k = inr data /\
     (data = [] \/ (Z.of_nat (length data) < limit self)%Z)) /\
  (forall k,
     (0 < limit self)%Z ->
     (forall i, i <= k ->
        exists data, nth_page self env s e t w i = inr data /\
                     Z.of_nat (length data) = limit self) ->
     (fetch_sales_data self env (S k) s e t w).1 = Running /\
     length (issued w (fetch_sales_data self env (S k) s e t w).2) = S k) /\
  (forall db m,
     sales_api env = socrata db ->
     (0 < limit self)%Z ->
     0 < m ->
     Z.of_nat (length db) = (Z.of_nat m * limit self)%Z ->
     (exists data, nth_page self env s e t w (m - 1) = inr data /\
                   Z.of_nat (length data) = limit self /\
                   drop (Z.to_nat (Z.of_nat m * limit self)) db = []) /\
     (fetch_sales_data self env m s e t w).1 = Running /\
     nth_page self env s e t w m = inr [] /\
     forall fuel, m < fuel ->
       (fetch_sales_data self env fuel s e t w).1 = Returned (DataFrame db) /\
       length (issued w (fetch_sales_data self env fuel s e t w).2) = S m).
Proof.
  intros Hok. split; [| split].
  - split.
    + intros [fuel Hfuel].
      rewrite fetch_sales_data_result in Hfuel. unfold fetch_loop in Hfuel.
      destruct (while_true self env s (resolve_end_date env e)
                  (build_headers t) fuel
                  (loop_entry s (resolve_end_date env e) t w) locals0)
        as [r w'] eqn:Hrun.
      destruct (while_true_ended _ _ _ _ _ _ _ _ _ _ Hok Hrun)
        as (k & d & _ & Hk & Hl).
      { intros st' ->. by apply Hfuel. }
      exists k, d. rewrite nth_page_from. split; [done |].
      by apply last_page_spec.
    + intros (k & d & Hk & Hl).
      rewrite nth_page_from in Hk. apply last_page_spec in Hl.
      destruct (while_true_ends _ _ _ _ _ _ _ _ _ Hok Hk Hl)
        as (fuel & st' & w' & Hrun).
      exists fuel. rewrite fetch_sales_data_result. unfold fetch_loop.
      by rewrite Hrun.
  - intros k Hp Hfull. apply fetch_running; [done |].
    intros i Hi. apply Hfull. lia.
  - intros db m Hapi Hp Hm Hlen.
    set (p := Z.to_nat (limit self)).
    assert (Hp' : 0 < p) by (unfold p; lia).
    assert (Hlen' : length db = m * p) by (unfold p; nia).
    assert (Hoff : forall i, Z.to_nat (Z.of_nat i * limit self) = i * p).
    { intros i. unfold p. nia. }
    assert (Hpage : forall i, i < m ->
              exists data, nth_page self env s e t w i = inr data /\
                           Z.of_nat (length data) = limit self).
    { intros i Hi. eexists. split; [by apply socrata_nth_page |].
      rewrite length_take, length_drop, Hoff, Hlen'. fold p.
      assert (p <= m * p - i * p) by nia. unfold p in *. lia. }
    assert (Hdrop : drop (Z.to_nat (Z.of_nat m * limit self)) db = []).
    { apply drop_ge. rewrite Hoff. lia. }
    split; [| split; [| split]].
    + destruct (Hpage (m - 1)) as (d & Hd & Hl); [lia |].
      exists d. by repeat split.
    + by apply fetch_running.
    + rewrite (socrata_nth_page _ _ db) by done. by rewrite Hdrop, take_nil.
    + intros fuel Hfuel.
      assert (Hdiv : length db / p = m).
      { rewrite Hlen'. apply Nat.div_mul. lia. }
      destruct (socrata_fetch self env db fuel s e t w Hapi Hp) as [Hr Hc].
      { fold p. lia. }
      fold p in Hc. by rewrite Hdiv in Hc.
Qed.

(** ** The requests of a call *)

(** The page requests of a call are those for offsets 0, P, 2P, ... *)
Lemma fetch_issued self env fuel s e t w :
  exists k, k <= fuel /\
    issued w (fetch_sales_data self env fuel s e t w).2 =
      (fun i => build_request self s (resolve_end_date env e)
                  (build_headers t) (Z.of_nat i * limit self))
        <$> seq 0 k.
Proof.
  destruct (while_true_sent self env s (resolve_end_date env e)
              (build_headers t) fuel
              (loop_entry s (resolve_end_date env e) t w) locals0)
    as (k & Hk & Hs).
  exists k. split; [done |].
  unfold issued. rewrite fetch_sales_data_sent. unfold fetch_loop.
  rewrite Hs, loop_entry_sent, drop_app_length. reflexivity.
Qed.

Lemma build_request_offset self s e hdrs off :
  param_int "$offset" (build_request self s e hdrs off) = off.
Proof. reflexivity. Qed.

Lemma build_request_limit self s e hdrs off :
  param_int "$limit" (build_request self s e hdrs off) = limit self.
Proof. reflexivity. Qed.

(** C6. In every run of the loop of a fetcher made by [__init__], the
    offsets of the successive page requests are 0, 50000, 100000, ...:
    each is the previous one plus exactly 50000, hence strictly larger. *)
Theorem offsets_advance_by_limit env fuel s e t w :
  let reqs :=
    issued w (fetch_sales_data NYCDataFetcher_init env fuel s e t w).2 in
  let offsets := param_int "$offset" <$> reqs in
  limit NYCDataFetcher_init = 50000%Z /\
  offsets = (fun i => (Z.of_nat i * 50000)%Z) <$> seq 0 (length reqs) /\
  forall i a b,
    offsets !! i = Some a -> offsets !! S i = Some b ->
    b = (a + 50000)%Z /\ (a < b)%Z.
Proof.
  intros reqs offsets.
  destruct (fetch_issued NYCDataFetcher_init env fuel s e t w)
    as (k & _ & Hreqs).
  fold reqs in Hreqs.
  assert (Hoff : offsets = (fun i => (Z.of_nat i * 50000)%Z) <$> seq 0 k).
  { unfold offsets. rewrite Hreqs, <- list_fmap_compose.
    apply list_fmap_ext. intros _ i _. reflexivity. }
  split; [reflexivity |]. split.
  - by rewrite Hreqs, length_fmap, length_seq.
  - intros i a b. rewrite Hoff, !list_lookup_fmap.
    intros Ha Hb.
    destruct (seq 0 k !! i) as [x|] eqn:Hx; [| discriminate].
    destruct (seq 0 k !! S i) as [y|] eqn:Hy; [| discriminate].
    apply lookup_seq in Hx as [-> _]. apply lookup_seq in Hy as [-> _].
    simpl in Ha, Hb. injection Ha as <-. injection Hb as <-. lia.
Qed.

Lemma truthy_supplied t : truthy t = true <-> token_supplied t.
Proof.
  split.
  - destruct t as [[|a tok]|]; try discriminate. intros _.
    by exists (String a tok).
  - by intros ([|a tok] & -> & Hne).
Qed.

Lemma build_headers_lookup t :
  build_headers t !! "X-App-Token" = if truthy t then t else None.
Proof. by destruct t as [[|a tok]|]. Qed.

(** C7. The [i]-th page request of a call is a GET of the sales endpoint
    whose query parameters are [$limit] = the page size, [$offset] =
    [i] times the page size (the loop's current offset), [$where] = the
    filter [sale_date >= 'start' AND sale_date <= 'end'] with both
    bounds inclusive, and [$order] = [sale_date DESC]; it carries the
    header [X-App-Token], holding the token, if and only if an app token
    was supplied. *)
Theorem page_request_shape self env fuel s e t w i r :
  issued w (fetch_sales_data self env fuel s e t w).2 !! i = Some r ->
  http_method r = "GET" /\
  url r = base_url self +:+ "/" +:+ sales_endpoint self /\
  params r =
    [ ("$limit", PInt (limit self));
      ("$offset", PInt (Z.of_nat i * limit self));
      ("$where", PStr ("sale_date >= '" +:+ s +:+ "' AND sale_date <= '"
                       +:+ resolve_end_date env e +:+ "'"));
      ("$order", PStr "sale_date DESC") ] /\
  (is_Some (headers r !! "X-App-Token") <-> token_supplied t) /\
  (forall tok, headers r !! "X-App-Token" = Some tok -> t = Some tok) /\
  (forall k, k <> "X-App-Token" -> headers r !! k = None).
Proof.
  intros Hr.
  destruct (fetch_issued self env fuel s e t w) as (k & _ & Hreqs).
  rewrite Hreqs, list_lookup_fmap in Hr.
  destruct (seq 0 k !! i) as [x|] eqn:Hx; [| discriminate].
  apply lookup_seq in Hx as [-> _]. simpl in Hr. injection Hr as <-.
  simpl. repeat split; try reflexivity.
  - rewrite build_headers_lookup. intros [tok Htok].
    apply truthy_supplied. by destruct (truthy t).
  - rewrite build_headers_lookup. intros Ht.
    apply truthy_supplied in Ht as Ht'. rewrite Ht'.
    destruct Ht as (tok & -> & _). by eexists.
  - intros tok. rewrite build_headers_lookup. by destruct (truthy t).
  - intros k' Hk'. unfold build_headers.
    destruct t as [tok|]; [| apply lookup_empty].
    destruct (truthy (Some tok)); [| apply lookup_empty].
    rewrite lookup_insert_ne by done. apply lookup_empty.
Qed.

(** ** Saved files *)

Lemma foldl_add_key_elem keys : forall seen c,
  c ∈ foldl add_key seen keys <-> c ∈ seen \/ c ∈ keys.
Proof.
  induction keys as [|k keys IH]; intros seen c; simpl.
  - rewrite elem_of_nil. tauto.
  - rewrite IH, elem_of_cons. unfold add_key.
    destruct (decide (k ∈ seen)) as [Hin | Hout].
    + split; [tauto |]. intros [H | [-> | H]]; tauto.
    + rewrite elem_of_app, list_elem_of_singleton. tauto.
Qed.

Lemma elem_of_concat_keys (data : list SaleRecord) c :
  c ∈ concat (record_keys <$> data) <-> field_of data c.
Proof.
  unfold field_of. induction data as [|r data IH]; simpl.
  - rewrite elem_of_nil. split; [tauto |].
    intros (r & Hr & _). by apply elem_of_nil in Hr.
  - rewrite elem_of_app, IH. split.
    + intros [H | (r' & Hr' & Hc)].
      * exists r. split; [apply elem_of_cons; tauto | done].
      * exists r'. split; [apply elem_of_cons; tauto | done].
    + intros (r' & Hr' & Hc). apply elem_of_cons in Hr' as [-> | Hr'].
      * by left.
      * right. by exists r'.
Qed.

(** The columns of a frame are the field names of its records. *)
Lemma frame_columns_fields data c :
  c ∈ columns (DataFrame data) <-> field_of data c.
Proof.
  simpl. unfold frame_columns.
  rewrite foldl_add_key_elem, elem_of_nil, elem_of_concat_keys. tauto.
Qed.

Lemma frame_rows_length data : length (rows (DataFrame data)) = length data.
Proof. simpl. apply length_fmap. Qed.

Lemma append_inv_prefix (p a b : string) : p +:+ a = p +:+ b -> a = b.
Proof.
  induction p as [|c p IH]; simpl; [done |].
  intros H. injection H as H. by apply IH.
Qed.

(** The archive copy and the canonical copy are two different files. *)
Lemma archive_path_fresh self env s e :
  archive_path self env s e <> standard_path self.
Proof.
  unfold archive_path, standard_path, path_join, archive_name.
  intros H. do 2 apply append_inv_prefix in H. discriminate H.
Qed.


(** ** No file on error *)

(** With a positive page size the loop lets an error through only when
    its very first request fails. *)
Lemma while_true_propagated self env s e hdrs fuel : forall w st x w',
  (0 < limit self)%Z -> (0 <= offset st)%Z ->
  while_true self env s e hdrs fuel w st = (Propagated x, w') ->
  offset st = 0%Z /\
  reply_at self env s e hdrs w st = inl x /\
  sent w' = sent w ++ [build_request self s e hdrs (offset st)].
Proof.
  induction fuel as [|fuel IH]; intros w st x w' Hp Hoff Hrun;
    simpl in Hrun; [discriminate |].
  pose proof (loop_body_ctl self env s e hdrs w st) as Hc.
  pose proof (loop_body_sent self env s e hdrs w st) as Hs.
  destruct (loop_body self env s e hdrs w st) as [[st1 | st1 | y] w1];
    simpl in Hc, Hs, Hrun; [| discriminate |].
  - destruct (reply_at self env s e hdrs w st) as [y | data].
    { destruct (0 <? offset st)%Z; discriminate. }
    destruct (last_page self data); [discriminate |].
    injection Hc as ->.
    apply IH in Hrun as (H0 & _); [| done | simpl; lia].
    simpl in H0. lia.
  - injection Hrun as -> ->.
    destruct (reply_at self env s e hdrs w st) as [z | data].
    + destruct (0 <? offset st)%Z eqn:Hz; [discriminate |].
      injection Hc as ->. apply Z.ltb_ge in Hz.
      repeat split; [lia | done..].
    + destruct (last_page self data); discriminate.
Qed.


(** ** The metadata probe *)

Lemma py_bind_inr {A B} (m : Py A) (f : A -> Py B) w b w' :
  py_bind m f w = (inr b, w') ->
  exists a w1, m w = (inr a, w1) /\ f a w1 = (inr b, w').
Proof.
  unfold py_bind. destruct (m w) as [[x | a] w1]; [discriminate |].
  intros H. by exists a, w1.
Qed.

(** A [try] either passes the value of its body on or runs its handler. *)
Lemma try_except_handled {A} (body : Py A) (handler : PyException -> Py A) w :
  (exists a w', body w = (inr a, w') /\
                try_except body handler w = (inr a, w')) \/
  (exists x w', body w = (inl x, w') /\
                try_except body handler w = handler x w').
Proof.
  unfold try_except. destruct (body w) as [[x | a] w'].
  - right. by exists x, w'.
  - left. by exists a, w'.
Qed.

Lemma get_dataset_info_http_failure self env w x :
  http_json (metadata_api env) (length (sent w)) (metadata_request self)
    = inl x ->
  probe_failed self env w x.
Proof.
  intros H. unfold probe_failed, get_dataset_info, try_except, py_bind,
    py_http_json.
  by rewrite H.
Qed.

Lemma keeps_files_ret {A} (a : A) : keeps_files (py_ret a).
Proof. by intros w. Qed.

Lemma keeps_files_lift {A} (r : PyException + A) : keeps_files (py_lift r).
Proof. by intros w. Qed.

Lemma keeps_files_log entry : keeps_files (py_log entry).
Proof. by intros w. Qed.

Lemma keeps_files_http tr req : keeps_files (py_http_json tr req).
Proof. intros w. unfold py_http_json. by destruct (http_json _ _ _). Qed.

Lemma keeps_files_bind {A B} (m : Py A) (f : A -> Py B) :
  keeps_files m -> (forall a, keeps_files (f a)) -> keeps_files (py_bind m f).
Proof.
  intros Hm Hf w. unfold py_bind. specialize (Hm w).
  destruct (m w) as [[x | a] w1]; simpl in *; [done |].
  by rewrite Hf.
Qed.

Lemma keeps_files_try {A} (body : Py A) (handler : PyException -> Py A) :
  keeps_files body -> (forall x, keeps_files (handler x)) ->
  keeps_files (try_except body handler).
Proof.
  intros Hb Hh w. unfold try_except. specialize (Hb w).
  destruct (body w) as [[x | a] w1]; simpl in *; [| done].
  by rewrite Hh.
Qed.

Create HintDb keeps_files.
#[local] Hint Resolve keeps_files_ret keeps_files_lift keeps_files_log
  keeps_files_http keeps_files_bind keeps_files_try : keeps_files.

Lemma keeps_files_log_columns cols : keeps_files (log_columns cols).
Proof. induction cols as [|col cols IH]; simpl; auto 10 with keeps_files. Qed.
#[local] Hint Resolve keeps_files_log_columns : keeps_files.

Lemma get_dataset_info_keeps_files self env :
  keeps_files (get_dataset_info self env).
Proof.
  unfold get_dataset_info.
  apply keeps_files_try; [| auto with keeps_files].
  repeat (apply keeps_files_bind; [auto with keeps_files | intros ?]).
  - match goal with |- keeps_files (if ?b then _ else _) => destruct b end;
      auto 20 with keeps_files.
  - auto with keeps_files.
Qed.


(** ** Concrete runs *)

Example fetch_five_records_in_pages_of_two :
  let db := replicate 5 sample_record in
  let out := fetch_sales_data small_fetcher (sample_env (socrata db)) 10
               "2019-01-01" None None world0 in
  out.1 = Returned (DataFrame db) /\
  param_int "$offset" <$> sent out.2 = [0; 2; 4]%Z /\
  columns (DataFrame db) = ["borough"; "sale_date"] /\
  sleeps out.2 = 2.
Proof. vm_compute. done. Qed.

Example get_dataset_info_well_formed :
  (get_dataset_info NYCDataFetcher_init (metadata_env sample_metadata)
     world0).1 = inr (Some sample_metadata).
Proof. reflexivity. Qed.

Example get_dataset_info_null_description :
  let v := JObj [("name", JStr "sales"); ("description", JNull)] in
  let out := get_dataset_info NYCDataFetcher_init (metadata_env v) world0 in
  out.1 = inr None /\ last (log out.2) = Some (metadata_failure TypeError).
Proof. split; reflexivity. Qed.

Lemma fetch_request_count_witness :
  let db := replicate 5 sample_record in
  let out := fetch_sales_data small_fetcher (sample_env (socrata db)) 10
               "2019-01-01" None None world0 in
  out.1 = Returned (DataFrame db) /\
  Z.of_nat (length (issued world0 out.2)) = ceil_div 5 2.
Proof.
  intros db out.
  destruct (fetch_request_count small_fetcher (sample_env (socrata db)) db 10
              "2019-01-01" None None world0)
    as (Hres & _ & Hceil & _); [reflexivity | reflexivity | reflexivity |].
  split; [exact Hres | apply Hceil; discriminate].
Defined.

Lemma fetch_termination_witness :
  let db := replicate 4 sample_record in
  let env := sample_env (socrata db) in
  terminates small_fetcher env "2019-01-01" None None world0 /\
  (fetch_sales_data small_fetcher env 2 "2019-01-01" None None world0).1
    = Running /\
  nth_page small_fetcher env "2019-01-01" None None world0 2 = inr [] /\
  length (issued world0
            (fetch_sales_data small_fetcher env 3 "2019-01-01" None None
               world0).2) = 3.
Proof.
  intros db env.
  destruct (fetch_termination small_fetcher env "2019-01-01" None None world0
              (socrata_succeeds env db eq_refl)) as (Hiff & _ & Hexact).
  destruct (Hexact db 2 eq_refl eq_refl ltac:(lia) eq_refl)
    as (_ & Hrun & Hempty & Hret).
  split; [| split; [exact Hrun | split; [exact Hempty |]]].
  - apply Hiff. exists 2, []. split; [exact Hempty | by left].
  - apply (Hret 3). lia.
Defined.


Lemma fetch_first_page_failure_witness :
  (fetch_sales_data NYCDataFetcher_init (sample_env (always_failing Timeout)) 5
     "2019-01-01" None None world0).1 = Raised Timeout.
Proof.
  apply (fetch_first_page_failure NYCDataFetcher_init
           (sample_env (always_failing Timeout)) 5 "2019-01-01" None None
           world0 Timeout); [reflexivity | lia].
Defined.


Lemma offsets_advance_by_limit_witness :
  let page := replicate (Z.to_nat 50000) sample_record in
  let env := sample_env (page_then_failure page Timeout) in
  let reqs :=
    issued world0
      (fetch_sales_data NYCDataFetcher_init env 5 "2019-01-01" None None
         world0).2 in
  param_int "$offset" <$> reqs = [0; 50000]%Z /\ (0 < 50000)%Z.
Proof.
  intros page env reqs.
  destruct (offsets_advance_by_limit env 5 "2019-01-01" None None world0)
    as (_ & Hoffsets & Hstep).
  assert (Hlen : length reqs = 2) by (vm_compute; reflexivity).
  fold reqs in Hoffsets, Hstep. rewrite Hlen in Hoffsets.
  split; [exact Hoffsets |].
  destruct (Hstep 0 0%Z 50000%Z) as [_ Hlt];
    [by rewrite Hoffsets | by rewrite Hoffsets | exact Hlt].
Defined.

Lemma page_request_shape_witness :
  let r := build_request NYCDataFetcher_init "2019-01-01" "2026-01-31"
             (build_headers (Some "secret")) 0 in
  http_method r = "GET" /\
  headers r !! "X-App-Token" = Some "secret" /\
  token_supplied (Some "secret").
Proof.
  intros r.
  destruct (page_request_shape NYCDataFetcher_init (sample_env (socrata [])) 5
              "2019-01-01" None (Some "secret") world0 0 r)
    as (Hget & _ & _ & Hiff & _); [reflexivity |].
  split; [exact Hget | split; [reflexivity |]].
  apply Hiff. by exists "secret".
Defined.


(** * Further properties of the code *)

(** ** What the loop keeps track of *)

Section loop_more.
Context (self : NYCDataFetcher) (env : Env).
Context (start_date end_date : string) (hdrs : gmap string string).

Local Abbreviation body := (loop_body self env start_date end_date hdrs).
Local Abbreviation loop := (while_true self env start_date end_date hdrs).
Local Abbreviation request := (build_request self start_date end_date hdrs).
Local Abbreviation P := (limit self).
Local Abbreviation reply := (reply_at self env start_date end_date hdrs).
Local Abbreviation pages := (page_from self env start_date end_date hdrs).
Local Abbreviation is_last := (last_page self).

Ltac body_cases :=
  unfold loop_body; simpl;
  destruct (http_json _ _ _) as [? | [|? ?]]; simpl;
  repeat match goal with |- context [if ?b then _ else _] => destruct b end;
  simpl.

(** One pass sleeps exactly when it goes on. *)
Lemma loop_body_sleeps w st :
  sleeps (body w st).2 =
    match (body w st).1 with
    | Continue _ => S (sleeps w)
    | _ => sleeps w
    end.
Proof. body_cases; reflexivity. Qed.

Lemma loop_body_counted w st :
  counted st ->
  match (body w st).1 with
  | Continue st' | Break st' => counted st'
  | Raise _ => True
  end.
Proof.
  unfold counted. intros H. body_cases; try done;
    rewrite length_app; simpl length; lia.
Qed.

(** What a pass adds to [all_data]: the page it received. *)
Lemma loop_body_all_data w st :
  match (body w st).1 with
  | Continue st' | Break st' =>
      all_data st' = all_data st ++ page_data (reply w st)
  | Raise _ => True
  end.
Proof.
  pose proof (loop_body_ctl self env start_date end_date hdrs w st) as Hc.
  rewrite Hc. destruct (reply w st) as [x | data]; simpl.
  - destruct (0 <? offset st)%Z; [by rewrite app_nil_r | done].
  - destruct (is_last data); [| done].
    destruct data; [by rewrite app_nil_r | done].
Qed.

Lemma loop_body_offset w st :
  match (body w st).1 with
  | Continue st' => offset st' = (offset st + P)%Z
  | _ => True
  end.
Proof.
  pose proof (loop_body_ctl self env start_date end_date hdrs w st) as Hc.
  rewrite Hc. destruct (reply w st) as [x | data]; simpl.
  - by destruct (0 <? offset st)%Z.
  - by destruct (is_last data).
Qed.

Lemma while_true_counted fuel : forall w st,
  counted st ->
  match exit_locals (loop fuel w st).1 with
  | Some st' => counted st'
  | None => True
  end.
Proof.
  induction fuel as [|fuel IH]; intros w st H; simpl; [done |].
  pose proof (loop_body_counted w st H) as Hb.
  destruct (body w st) as [[st1 | st1 | x] w1]; simpl in *; [by apply IH | done..].
Qed.

(** The sleeps of a run: one per request while it goes on, one fewer than
    the requests once it is over. *)
Lemma while_true_sleeps fuel : forall w st,
  let r := loop fuel w st in
  sleeps r.2 + (if ended r.1 then 1 else 0) + length (sent w) =
    sleeps w + length (sent r.2).
Proof.
  induction fuel as [|fuel IH]; intros w st; simpl; [lia |].
  pose proof (loop_body_sleeps w st) as Hsl.
  pose proof (loop_body_sent self env start_date end_date hdrs w st) as Hs.
  destruct (body w st) as [[st1 | st1 | x] w1] eqn:Hb; simpl in *;
    try (rewrite Hs, Hsl, length_app; simpl; lia).
  specialize (IH w1 st1). simpl in IH.
  rewrite Hs, Hsl, length_app in IH. simpl in IH. lia.
Qed.

(** The accumulated records of a run: the pages of its requests, in the
    order of the requests. *)
Lemma while_true_all_data fuel : forall w st,
  let r := loop fuel w st in
  exists k,
    length (sent r.2) = length (sent w) + k /\
    match exit_locals r.1 with
    | Some st' =>
        all_data st' =
          all_data st ++ concat ((fun i => page_data (pages w st i)) <$> seq 0 k)
    | None => True
    end.
Proof.
  induction fuel as [|fuel IH]; intros w st; simpl.
  - exists 0. simpl. rewrite app_nil_r. split; [lia | done].
  - pose proof (loop_body_all_data w st) as Ha.
    pose proof (loop_body_offset w st) as Ho.
    pose proof (loop_body_sent self env start_date end_date hdrs w st) as Hs.
    rewrite <- page_from_0 in Ha.
    destruct (body w st) as [[st1 | st1 | x] w1] eqn:Hb; simpl in *.
    + destruct (IH w1 st1) as (k & Hlen & Hdata). exists (S k). split.
      * rewrite Hlen, Hs, length_app. simpl. lia.
      * destruct (exit_locals _) as [st'|]; [| done].
        rewrite Hdata, Ha, <- app_assoc. f_equal. simpl. f_equal. f_equal.
        rewrite <- fmap_S_seq, <- list_fmap_compose.
        apply list_fmap_ext. intros _ i _. simpl.
        by rewrite (page_from_shift self env start_date end_date hdrs w st).
    + exists 1. split; [rewrite Hs, length_app; simpl; lia |].
      simpl. by rewrite app_nil_r.
    + exists 1. split; [rewrite Hs, length_app; simpl; lia | done].
Qed.

(** The log lines of a pass whose request fails. *)
Lemma loop_body_failure_log w st x :
  reply w st = inl x ->
  log (body w st).2 =
    log w ++
    [INFO [Lit "Requesting records "; Num (offset st); Lit " to ";
           Num (offset st + P); Lit "..."];
     ERROR [Lit "API request failed: "; Exc (RequestError x)]] ++
    (if (0 <? offset st)%Z
     then [INFO [Lit "Returning "; Num (total_fetched st);
                 Lit " records fetched so far"]]
     else []).
Proof.
  unfold reply_at, loop_body. simpl. intros ->.
  destruct (0 <? offset st)%Z; simpl; rewrite <- ?app_assoc; reflexivity.
Qed.

(** Full pages, then a failed request at a positive offset: the loop
    ends by [break] right after the failure, which it logs together with
    the number of records it returns. *)
Lemma while_true_fails_after k : forall w st x fuel,
  (forall i, i < k ->
     exists d, pages w st i = inr d /\ is_last d = false) ->
  pages w st k = inl x ->
  (0 < offset st + Z.of_nat k * P)%Z ->
  k < fuel ->
  exists st' w' pre,
    loop fuel w st = (Finished st', w') /\
    length (sent w') = length (sent w) + S k /\
    log w' = pre ++ [ERROR [Lit "API request failed: "; Exc (RequestError x)];
                     INFO [Lit "Returning "; Num (total_fetched st');
                           Lit " records fetched so far"]].
Proof.
  induction k as [|k IH]; intros w st x fuel Hfull Hk Hpos Hfuel;
    (destruct fuel as [|fuel]; [lia |]); simpl.
  - rewrite page_from_0 in Hk.
    pose proof (loop_body_failure_log w st x Hk) as Hlog.
    destruct (loop_body_failure _ _ _ _ _ w st x Hk) as (w' & Hb & Hs & _).
    assert (Hz : (0 <? offset st)%Z = true) by (apply Z.ltb_lt; lia).
    rewrite Hb, Hz in *. simpl in Hlog.
    eexists st, w', (log w ++ [_]). rewrite Hs, length_app. simpl.
    split; [done | split; [lia |]].
    rewrite Hlog, <- app_assoc. reflexivity.
  - destruct (Hfull 0) as (d & Hd & Hl); [lia |].
    rewrite page_from_0 in Hd.
    destruct (loop_body_continue _ _ _ _ _ w st d Hd Hl)
      as (st1 & w1 & -> & Ho & _ & Hs & _).
    destruct (IH w1 st1 x fuel) as (st' & w' & pre & Hrun & Hlen & Hlog).
    { intros i Hi.
      rewrite (page_from_shift self env start_date end_date hdrs w st)
        by assumption.
      apply Hfull. lia. }
    { by rewrite (page_from_shift self env start_date end_date hdrs w st). }
    { rewrite Ho. lia. }
    { lia. }
    exists st', w', pre. rewrite Hrun, Hlen, Hs, length_app. simpl.
    split; [done | split; [lia | done]].
Qed.
End loop_more.

(** ** [fetch_sales_data]: bookkeeping, partial results, files *)

Lemma fetch_sales_data_sleeps self env fuel s e t w :
  sleeps (fetch_sales_data self env fuel s e t w).2 =
    sleeps (fetch_loop self env fuel s e t w).2.
Proof.
  unfold fetch_sales_data, fetch_loop, loop_entry.
  by destruct (while_true _ _ _ _ _ _ _ _) as [[st | st | x] w'].
Qed.

Lemma loop_entry_sleeps s e t w : sleeps (loop_entry s e t w) = sleeps w.
Proof. unfold loop_entry. by destruct (truthy t). Qed.

Lemma fetch_sales_data_log self env fuel s e t w :
  log (fetch_sales_data self env fuel s e t w).2 =
    log (fetch_loop self env fuel s e t w).2 ++
    match (fetch_loop self env fuel s e t w).1 with
    | Finished st =>
        saving_lines self env s (resolve_end_date env e)
          (DataFrame (all_data st))
    | _ => []
    end.
Proof.
  unfold fetch_sales_data, fetch_loop, loop_entry, saving_lines.
  destruct (while_true _ _ _ _ _ _ _ _) as [[st | st | x] w']; simpl;
    rewrite ?app_nil_r, <- ?app_assoc; reflexivity.
Qed.

Lemma fetch_loop_accumulated self env fuel s e t w :
  match exit_locals (fetch_loop self env fuel s e t w).1 with
  | Some st =>
      all_data st =
        pages_received self env s e t w
          (length (issued w (fetch_loop self env fuel s e t w).2))
  | None => True
  end.
Proof.
  unfold fetch_loop, pages_received.
  destruct (while_true_all_data self env s (resolve_end_date env e)
              (build_headers t) fuel
              (loop_entry s (resolve_end_date env e) t w) locals0)
    as (k & Hlen & Hdata).
  rewrite loop_entry_sent in Hlen.
  rewrite (issued_length _ _ k Hlen).
  destruct (exit_locals _) as [st|]; [| done].
  rewrite Hdata. simpl. f_equal. apply list_fmap_ext. intros _ i _.
  by rewrite nth_page_from.
Qed.

Lemma fetch_loop_counted self env fuel s e t w :
  match exit_locals (fetch_loop self env fuel s e t w).1 with
  | Some st => counted st
  | None => True
  end.
Proof.
  unfold fetch_loop.
  by apply (while_true_counted self env s (resolve_end_date env e)
              (build_headers t) fuel).
Qed.

(** X1. At every exit of the loop that keeps the variables, the counter
    [total_fetched] equals the number of records in [all_data]. *)
Theorem counter_matches_records self env fuel s e t w :
  match (fetch_loop self env fuel s e t w).1 with
  | Exhausted st | Finished st =>
      total_fetched st = Z.of_nat (length (all_data st))
  | Propagated _ => True
  end.
Proof.
  pose proof (fetch_loop_counted self env fuel s e t w) as H.
  by destruct (fetch_loop self env fuel s e t w).1.
Qed.

(** X2. The frame a call returns is the frame of the pages it received,
    concatenated in the order of the requests: nothing is dropped,
    repeated or reordered. *)
Theorem result_is_pages_in_order self env fuel s e t w df :
  (fetch_sales_data self env fuel s e t w).1 = Returned df ->
  df = DataFrame
         (pages_received self env s e t w
            (length (issued w (fetch_sales_data self env fuel s e t w).2))).
Proof.
  intros Hres. rewrite fetch_sales_data_result in Hres.
  pose proof (fetch_loop_accumulated self env fuel s e t w) as Hacc.
  unfold issued in *. rewrite fetch_sales_data_sent.
  destruct (fetch_loop self env fuel s e t w).1 as [st | st | x];
    try discriminate.
  injection Hres as <-. simpl in Hacc. by rewrite Hacc.
Qed.

(** The loop after [k] full pages and a failure. *)
Lemma fetch_loop_fails_after self env fuel s e t w k x :
  (0 < limit self)%Z -> 0 < k ->
  (forall i, i < k ->
     exists data, nth_page self env s e t w i = inr data /\
                  (limit self <= Z.of_nat (length data))%Z) ->
  nth_page self env s e t w k = inl x ->
  k < fuel ->
  exists st w' pre,
    fetch_loop self env fuel s e t w = (Finished st, w') /\
    all_data st = pages_received self env s e t w k /\
    length (issued w w') = S k /\
    log w' = pre ++ [ERROR [Lit "API request failed: "; Exc (RequestError x)];
                     INFO [Lit "Returning "; Num (Z.of_nat (length (all_data st)));
                           Lit " records fetched so far"]].
Proof.
  intros Hp Hk Hfull Hfail Hfuel.
  pose proof (fetch_loop_accumulated self env fuel s e t w) as Hacc.
  pose proof (fetch_loop_counted self env fuel s e t w) as Hcount.
  unfold fetch_loop, counted in *.
  destruct (while_true_fails_after self env s (resolve_end_date env e)
              (build_headers t) k
              (loop_entry s (resolve_end_date env e) t w) locals0 x fuel)
    as (st & w' & pre & Hrun & Hlen & Hlog).
  { intros i Hi. destruct (Hfull i Hi) as (d & Hd & Hl).
    exists d. rewrite <- nth_page_from. split; [done |].
    destruct d; simpl in *; [lia | by apply Z.ltb_ge]. }
  { by rewrite <- nth_page_from. }
  { simpl. nia. }
  { done. }
  rewrite loop_entry_sent in Hlen.
  rewrite Hrun in Hacc, Hcount. simpl in Hacc, Hcount.
  rewrite (issued_length _ _ _ Hlen) in Hacc.
  exists st, w', pre. rewrite Hrun, <- Hcount.
  split; [done |]. split; [| split; [by apply issued_length | done]].
  rewrite Hacc. unfold pages_received.
  rewrite seq_S, fmap_app, concat_app. simpl. rewrite Hfail. simpl.
  by rewrite !app_nil_r.
Qed.


(** X4. When a later request fails and the partial result is returned,
    the log shows the error and then the number of records returned,
    which is the number of rows of the returned frame, followed by the
    three lines about saving. *)
Theorem partial_result_is_logged self env fuel s e t w k x :
  (0 < limit self)%Z -> 0 < k ->
  (forall i, i < k ->
     exists data, nth_page self env s e t w i = inr data /\
                  (limit self <= Z.of_nat (length data))%Z) ->
  nth_page self env s e t w k = inl x ->
  k < fuel ->
  let out := fetch_sales_data self env fuel s e t w in
  exists df pre,
    out.1 = Returned df /\
    log out.2 =
      pre ++
      [ERROR [Lit "API request failed: "; Exc (RequestError x)];
       INFO [Lit "Returning "; Num (frame_len df);
             Lit " records fetched so far"]] ++
      saving_lines self env s (resolve_end_date env e) df.
Proof.
  intros Hp Hk Hfull Hfail Hfuel out.
  destruct (fetch_loop_fails_after self env fuel s e t w k x)
    as (st & w' & pre & Hrun & _ & _ & Hlog); try done.
  exists (DataFrame (all_data st)), pre. unfold out.
  rewrite fetch_sales_data_result, fetch_sales_data_log, Hrun. simpl.
  split; [done |].
  rewrite Hlog, <- app_assoc. unfold frame_len.
  by rewrite frame_rows_length.
Qed.

(** X5. Over a whole call, [time.sleep] is called once between any two
    successive page requests and not after the last one: a call that has
    ended slept one time fewer than it sent requests, a call still
    running slept once per request. *)
Theorem one_sleep_between_requests self env fuel s e t w :
  let out := fetch_sales_data self env fuel s e t w in
  sleeps out.2 + match out.1 with Running => 0 | _ => 1 end =
    sleeps w + length (issued w out.2).
Proof.
  intros out. unfold out, issued.
  rewrite fetch_sales_data_sleeps, fetch_sales_data_result,
    fetch_sales_data_sent, length_drop.
  pose proof (while_true_sleeps self env s (resolve_end_date env e)
                (build_headers t) fuel
                (loop_entry s (resolve_end_date env e) t w) locals0) as H.
  destruct (while_true_sent self env s (resolve_end_date env e)
              (build_headers t) fuel
              (loop_entry s (resolve_end_date env e) t w) locals0)
    as (k & _ & Hk).
  apply (f_equal length) in Hk. rewrite length_app in Hk.
  simpl in H. rewrite loop_entry_sent, loop_entry_sleeps in *.
  unfold fetch_loop.
  destruct (while_true _ _ _ _ _ _ _ _) as [[st | st | y] w']; simpl in *; lia.
Qed.


(** ** Files across calls *)

Lemma append_length (a b : string) :
  String.length (a +:+ b) = String.length a + String.length b.
Proof. induction a as [|c a IH]; simpl; [done | by rewrite IH]. Qed.

Lemma append_inv_suffix (c : string) : forall a b : string,
  a +:+ c = b +:+ c -> a = b.
Proof.
  induction a as [|x a IH]; intros [|y b] H; simpl in H; try done.
  - apply (f_equal String.length) in H. simpl in H.
    rewrite !append_length in H. simpl in H. lia.
  - apply (f_equal String.length) in H. simpl in H.
    rewrite !append_length in H. simpl in H. lia.
  - injection H as -> H. f_equal. by apply IH.
Qed.

(** Different timestamps give different archive files. *)
Lemma archive_path_timestamp self env1 env2 s e :
  timestamp env1 <> timestamp env2 ->
  archive_path self env1 s e <> archive_path self env2 s e.
Proof.
  intros Hts H. apply Hts.
  unfold archive_path, path_join, archive_name in H.
  do 7 apply append_inv_prefix in H.
  by apply append_inv_suffix in H.
Qed.

(** X7. A call writes nothing but its two files: whatever its outcome,
    every other path holds what it held before. *)
Theorem fetch_touches_only_its_files self env fuel s e t w path :
  path <> standard_path self ->
  path <> archive_path self env s (resolve_end_date env e) ->
  read_back path (fetch_sales_data self env fuel s e t w).2 =
    read_back path w.
Proof.
  intros Hstd Harch. unfold read_back.
  rewrite fetch_sales_data_files.
  destruct (fetch_loop self env fuel s e t w).1; try done.
  by rewrite !lookup_insert_ne.
Qed.

(** X8. Two successful calls for the same date range at different
    timestamps: after the second, the archive of the first still holds
    the first frame, while [nyc_property_sales.csv] and the new archive
    hold the second. *)
Theorem later_fetch_keeps_earlier_archive
    self env1 env2 fuel1 fuel2 s e t1 t2 w df1 df2 :
  timestamp env1 <> timestamp env2 ->
  let out1 := fetch_sales_data self env1 fuel1 s (Some e) t1 w in
  let out2 := fetch_sales_data self env2 fuel2 s (Some e) t2 out1.2 in
  out1.1 = Returned df1 ->
  out2.1 = Returned df2 ->
  read_back (archive_path self env1 s e) out2.2 = Some df1 /\
  read_back (archive_path self env2 s e) out2.2 = Some df2 /\
  read_back (standard_path self) out2.2 = Some df2.
Proof.
  intros Hts out1 out2 H1 H2. unfold out2, out1, read_back in *.
  rewrite fetch_sales_data_result in H1, H2.
  rewrite !fetch_sales_data_files.
  destruct (fetch_loop self env1 fuel1 s (Some e) t1 w).1
    as [st1 | st1 | x1]; try discriminate.
  destruct (fetch_loop self env2 fuel2 s (Some e) t2 _).1
    as [st2 | st2 | x2]; try discriminate.
  injection H1 as <-. injection H2 as <-. simpl.
  pose proof (archive_path_fresh self env1 s e) as Hf1.
  pose proof (archive_path_fresh self env2 s e) as Hf2.
  pose proof (archive_path_timestamp self env1 env2 s e Hts) as Hne.
  repeat split.
  - rewrite lookup_insert_ne by done.
    rewrite lookup_insert_ne by done.
    rewrite lookup_insert_ne by done.
    apply lookup_insert_eq.
  - rewrite lookup_insert_ne by done. apply lookup_insert_eq.
  - apply lookup_insert_eq.
Qed.

(** ** [get_dataset_info]: its request and when it succeeds *)

Lemma log_columns_result items : forall w,
  (log_columns items w).1 =
    if forallb is_object items then inr tt else inl AttributeError.
Proof.
  induction items as [|col items IH]; intros w; [done |].
  destruct col; try done. simpl. unfold py_bind at 1. simpl.
  unfold py_bind at 1. simpl. unfold py_bind at 1. simpl.
  apply IH.
Qed.

Lemma py_bind_result {A B} (m : Py A) (f : A -> Py B) w :
  (py_bind m f w).1 =
    match (m w).1 with
    | inr a => (f a (m w).2).1
    | inl e => inl e
    end.
Proof. unfold py_bind. by destruct (m w) as [[e | a] w']. Qed.

Lemma try_except_none_result {A} (body : Py (option A)) entry_of w :
  (try_except body (fun e => run py_log (entry_of e); py_ret None) w).1 =
    match (body w).1 with
    | inr a => inr a
    | inl _ => inr None
    end.
Proof. unfold try_except. by destruct (body w) as [[e | a] w']. Qed.

Ltac py_step :=
  rewrite py_bind_result;
  cbn [py_log py_lift py_ret fst snd py_get py_contains py_getitem].

(** When the probe returns a document. *)
Lemma probe_result_iff self env w v :
  (get_dataset_info self env w).1 = inr (Some v) <->
  probe_reply self env w = inr v /\ metadata_ok v = true.
Proof.
  unfold get_dataset_info, probe_reply.
  rewrite try_except_none_result. py_step. unfold py_http_json.
  destruct (http_json _ _ _) as [x | v0]; cbn [fst snd];
    [by split; [| intros []] |].
  generalize (record_request (metadata_request self) w). intros w0.
  destruct v0; try by (split; [| intros [[= <-] ?]]).
  do 4 py_step. unfold metadata_ok.
  destruct (default (JStr "N/A") (dict_get "description" members)) eqn:Hd;
    cbn [py_slice sliceable andb];
    try by (split; [| intros [[= <-] ?]; cbn in *; rewrite Hd in *]).
  all: do 8 py_step.
  all: destruct (dict_get "columns" members) as [c|] eqn:Hc.
  all: cbn [from_option is_Some].
  all: try by (rewrite bool_decide_eq_false_2 by (by intros [? ?]);
               cbn [py_ret fst];
               split; [intros [= <-] | intros [[= <-] ?]];
               rewrite ?Hd, ?Hc).
  all: rewrite bool_decide_eq_true_2 by eauto.
  all: do 2 py_step.
  all: destruct c; cbn [py_len columns_ok];
    try by (split; [| intros [[= <-] ?]; cbn in *; rewrite Hd, Hc in *]).
  all: do 3 py_step; cbn [py_slice]; py_step; cbn [py_iter].
  all: try by (split; [| intros [[= <-] ?]; cbn in *; rewrite Hd, Hc in *]).
  all: rewrite log_columns_result.
  all: match goal with |- context [forallb is_object ?l] =>
         destruct (forallb is_object l) eqn:Hall end.
  all: split; [intros [= <-] | intros [[= <-] Hok]];
         cbn in *; rewrite ?Hd, ?Hc in *; cbn in *; try done; try congruence.
Qed.

(** X9. The probe returns a document exactly when the endpoint's reply
    parses to it and it is a dict whose [description], if present, is a
    string or a list, and whose [columns], if present, is a list whose
    first ten elements are dicts (or an empty string). In every other
    case, a null description or an ill-formed column among the first
    ten included, the result is not a document. *)
Theorem probe_succeeds_iff self env w v :
  (get_dataset_info self env w).1 = inr (Some v) <->
  probe_reply self env w = inr v /\ metadata_ok v = true.
Proof. apply probe_result_iff. Qed.

Lemma logged_only_refl w : logged_only w w.
Proof. repeat split. exists []. by rewrite app_nil_r. Qed.

Lemma logged_only_trans w1 w2 w3 :
  logged_only w1 w2 -> logged_only w2 w3 -> logged_only w1 w3.
Proof.
  intros (Hs & Hz & Hf & l & Hl) (Hs' & Hz' & Hf' & l' & Hl').
  split; [congruence |]. split; [congruence |]. split; [congruence |].
  exists (l ++ l'). by rewrite Hl', Hl, app_assoc.
Qed.

Lemma only_logs_ret {A} (a : A) : only_logs (py_ret a).
Proof. intros w. apply logged_only_refl. Qed.

Lemma only_logs_lift {A} (r : PyException + A) : only_logs (py_lift r).
Proof. intros w. apply logged_only_refl. Qed.

Lemma only_logs_log entry : only_logs (py_log entry).
Proof. intros w. repeat split. by exists [entry]. Qed.

Lemma only_logs_bind {A B} (m : Py A) (f : A -> Py B) :
  only_logs m -> (forall a, only_logs (f a)) -> only_logs (py_bind m f).
Proof.
  intros Hm Hf w. unfold py_bind. specialize (Hm w).
  destruct (m w) as [[x | a] w1]; simpl in *; [done |].
  eapply logged_only_trans; [exact Hm | apply Hf].
Qed.

Create HintDb only_logs.
#[local] Hint Resolve only_logs_ret only_logs_lift only_logs_log
  only_logs_bind : only_logs.

Lemma only_logs_log_columns cols : only_logs (log_columns cols).
Proof. induction cols as [|col cols IH]; simpl; auto 10 with only_logs. Qed.
#[local] Hint Resolve only_logs_log_columns : only_logs.

(** The probe's effect on the world: its request, then log lines. *)
Lemma logged_only_probe self env w :
  logged_only (record_request (metadata_request self) w)
    (get_dataset_info self env w).2.
Proof.
  unfold get_dataset_info, try_except.
  unfold py_bind at 1. unfold py_http_json.
  destruct (http_json _ _ _) as [x | v].
  - simpl. repeat split. by eexists [_].
  - match goal with |- context [?m (record_request ?r w)] =>
      assert (Hm : only_logs m) end.
    { repeat (apply only_logs_bind; [auto with only_logs | intros ?]).
      - match goal with |- only_logs (if ?b then _ else _) => destruct b end;
          auto 20 with only_logs.
      - auto with only_logs. }
    specialize (Hm (record_request (metadata_request self) w)).
    match goal with |- context [?m (record_request ?r w)] =>
      destruct (m (record_request r w)) as [[e | a] w1] end; simpl in *.
    + eapply logged_only_trans; [exact Hm |]. repeat split. by eexists [_].
    + exact Hm.
Qed.

(** X10. Whatever the endpoint replies, the probe sends exactly one
    request, a GET of the metadata URL without parameters or headers,
    and never retries; beyond that it only appends lines to the log: no
    sleep, no file. *)
Theorem probe_sends_one_request self env w :
  let w' := (get_dataset_info self env w).2 in
  sent w' =
    sent w ++
    [{| http_method := "GET";
        url := "https://data.cityofnewyork.us/api/views/usep-8jbt.json";
        params := []; headers := ∅; timeout_s := timeout self |}] /\
  sleeps w' = sleeps w /\
  files w' = files w /\
  exists lines, log w' = log w ++ lines.
Proof.
  destruct (logged_only_probe self env w) as (Hs & Hz & Hf & l & Hl).
  simpl in *. rewrite Hs, Hz, Hf. repeat split. by exists l.
Qed.

(** ** [fetch_recent_data] and [main] *)

Lemma get_dataset_info_returns self env w :
  exists r, get_dataset_info self env w =
              (inr r, (get_dataset_info self env w).2).
Proof.
  unfold get_dataset_info.
  match goal with |- context [try_except ?b ?h] =>
    destruct (try_except_handled b h w)
      as [(a & w' & _ & ->) | (x & w' & _ & ->)] end; eauto.
Qed.

Lemma window_valid_dec rt days :
  window_valid rt days <->
  (999999999 <? Z.abs days)%Z = false /\
  ((now_day rt - days <? 1) || (3652059 <? now_day rt - days))%Z = false.
Proof.
  unfold window_valid. rewrite orb_false_iff, !Z.ltb_ge. lia.
Qed.

(** [fetch_recent_data] inside its date range is [fetch_sales_data] over
    the window, without token. *)
Lemma fetch_recent_data_valid rt self env fuel days w :
  window_valid rt days ->
  fetch_recent_data rt self env fuel days w =
    (raise_request
       (fetch_sales_data self env fuel (strftime_ymd rt (now_day rt - days))
          (Some (strftime_ymd rt (now_day rt))) None w).1,
     (fetch_sales_data self env fuel (strftime_ymd rt (now_day rt - days))
        (Some (strftime_ymd rt (now_day rt))) None w).2).
Proof.
  intros [H1 H2]%window_valid_dec. unfold fetch_recent_data.
  rewrite H1, H2. by destruct (fetch_sales_data _ _ _ _ _ _ _).
Qed.

(** X11. [fetch_recent_data(days)]: when [days] days before now is a
    date Python can compute, the call is [fetch_sales_data] over the
    window from that date to today's: its page requests filter on that
    window and carry no app token. Otherwise an [OverflowError] is
    raised before any request and the world is left untouched. *)
Theorem fetch_recent_data_window rt self env fuel days w :
  let out := fetch_recent_data rt self env fuel days w in
  (window_valid rt days ->
   exists k, k <= fuel /\
     issued w out.2 =
       window_requests self (strftime_ymd rt (now_day rt - days))
         (strftime_ymd rt (now_day rt)) k) /\
  (~ window_valid rt days ->
   out.2 = w /\ (out.1 = Raised DateOverflow \/
                 out.1 = Raised (DeltaOverflow days))).
Proof.
  intros out. split.
  - intros Hv. unfold out. rewrite fetch_recent_data_valid by done. simpl.
    apply fetch_issued.
  - intros Hv. unfold out, fetch_recent_data.
    destruct (999999999 <? Z.abs days)%Z eqn:H1; [by split; [| right] |].
    destruct ((now_day rt - days <? 1) || (3652059 <? now_day rt - days))%Z
      eqn:H2; [by split; [| left] |].
    destruct Hv. by apply window_valid_dec.
Qed.

Lemma report_failure_eq e c :
  report_failure e c =
    (Returned tt,
     {| world := logger (fetch_failure e) (world c);
        stdin := stdin c;
        stdout := stdout c ++ hints |}).
Proof.
  unfold report_failure, script_bind, script_log, print, hints. simpl.
  by rewrite <- !app_assoc.
Qed.

Lemma main_without_directory rt env fuel c msg :
  mkdir_data_dir rt = Some msg ->
  (main rt env fuel c).1 = Raised (DirectoryError msg).
Proof.
  intros Hdir. unfold main, script_bind, print, new_fetcher. simpl.
  by rewrite Hdir.
Qed.

Lemma main_at_eof rt env fuel c :
  mkdir_data_dir rt = None ->
  stdin c = [] -> (main rt env fuel c).1 = Raised EOFError.
Proof.
  intros Hdir Hin. destruct (get_dataset_info_returns NYCDataFetcher_init env
                               (world c)) as [r Hr].
  unfold main, script_bind, print, new_fetcher, call_py, call, input. simpl.
  rewrite Hdir. simpl. rewrite Hr. simpl. by rewrite Hin.
Qed.

(** [main] up to the choice: the banner, the probe, the menu. *)
Lemma main_after_choice rt env fuel c line rest :
  mkdir_data_dir rt = None ->
  stdin c = line :: rest ->
  main rt env fuel c =
    script_try
      (sdo df <- run_choice rt NYCDataFetcher_init env fuel
                   (choice_of rt line);
       print_summary rt df)
      report_failure (after_menu env c rest).
Proof.
  intros Hdir Hin. destruct (get_dataset_info_returns NYCDataFetcher_init env
                               (world c)) as [r Hr].
  unfold main, after_menu, menu_output.
  unfold script_bind at 1 2 3 4 5 6 7 8 9 10 11 12 13 14.
  unfold print, new_fetcher, call_py, call, input. simpl.
  rewrite Hdir. simpl. rewrite Hr. simpl. rewrite Hin. simpl.
  by rewrite <- !app_assoc.
Qed.

Lemma script_try_report {A} (body : Script A) handler c :
  (forall e c', exists a, (handler e c').1 = Returned a) ->
  forall x, (script_try body handler c).1 <> Raised x.
Proof.
  intros Hh x. unfold script_try.
  destruct (body c) as [[a | e | ] c']; simpl; try done.
  destruct (Hh e c') as [a ->]. done.
Qed.


Lemma clock_valid_window rt days :
  clock_valid rt -> (0 <= days <= 730)%Z -> window_valid rt days.
Proof. unfold clock_valid, window_valid. lia. Qed.

Lemma call_eq {A} (f : World -> Result ScriptError A * World) c :
  call f c =
    ((f (world c)).1,
     {| world := (f (world c)).2; stdin := stdin c; stdout := stdout c |}).
Proof. unfold call. by destruct (f (world c)). Qed.

(** The summary touches nothing but standard output, and only pandas
    errors can come out of it. *)
Lemma print_summary_cases rt df c :
  world (print_summary rt df c).2 = world c /\
  ((print_summary rt df c).1 = Returned tt \/
   exists e, (print_summary rt df c).1 = Raised (PyError e)).
Proof.
  unfold print_summary, script_bind, print, print_frame, script_lift. simpl.
  destruct (frame_getitem df "sale_date") as [e | dates]; simpl; [eauto |].
  destruct (series_min rt dates) as [e | lo]; simpl; [eauto |].
  destruct (series_max rt dates) as [e | hi]; simpl; eauto.
Qed.

Lemma print_summary_key_error rt df c :
  frame_getitem df "sale_date" = inl KeyError ->
  (print_summary rt df c).1 = Raised (PyError KeyError).
Proof.
  intros H. unfold print_summary, script_bind, print, script_lift. simpl.
  by rewrite H.
Qed.

(** The protected block of [main] around a fetch [m]: how it ends and
    what it leaves, by the outcome of [m]. *)
Lemma try_summary rt (m : Script Frame) c :
  let out := script_try (sdo df <- m; print_summary rt df) report_failure c in
  match (m c).1 with
  | Running => out.1 = Running /\ world out.2 = world (m c).2
  | Raised e =>
      out.1 = Returned tt /\
      world out.2 = logger (fetch_failure e) (world (m c).2) /\
      stdout out.2 = stdout (m c).2 ++ hints
  | Returned df =>
      (out.1 = Returned tt /\ world out.2 = world (m c).2 /\
       (print_summary rt df (m c).2).1 = Returned tt) \/
      (exists e,
         (print_summary rt df (m c).2).1 = Raised (PyError e) /\
         out.1 = Returned tt /\
         world out.2 = logger (fetch_failure (PyError e)) (world (m c).2) /\
         exists pre, stdout out.2 = pre ++ hints)
  end.
Proof.
  unfold script_try, script_bind.
  destruct (m c) as [[df | e | ] c1]; cbn [fst snd].
  - destruct (print_summary_cases rt df c1) as [Hw [Hr | [e Hr]]].
    + left. destruct (print_summary rt df c1) as [r c2]. cbn [fst snd] in *.
      by subst r.
    + right. exists e. destruct (print_summary rt df c1) as [r c2].
      cbn [fst snd] in *. subst r. rewrite report_failure_eq. cbn.
      rewrite Hw. repeat split. by eexists.
  - by rewrite report_failure_eq.
  - done.
Qed.

(** When the sales endpoint is down a fetch raises at once and writes
    no file. *)
Lemma fetch_down self env fuel s e t w x :
  endpoint_down env x -> 0 < fuel ->
  (fetch_sales_data self env fuel s e t w).1 = Raised x /\
  files (fetch_sales_data self env fuel s e t w).2 = files w.
Proof.
  intros Hdown Hfuel.
  pose proof (fetch_sales_data_files self env fuel s e t w) as Hfiles.
  rewrite fetch_sales_data_result, Hfiles. unfold fetch_loop.
  destruct fuel as [|fuel]; [lia |]. simpl.
  destruct (loop_body_failure self env s (resolve_end_date env e)
              (build_headers t)
              (loop_entry s (resolve_end_date env e) t w) locals0 x)
    as (w' & -> & _); [apply Hdown |].
  done.
Qed.

Lemma fetch_recent_data_down rt self env fuel days w x :
  endpoint_down env x -> 0 < fuel ->
  exists e,
    (fetch_recent_data rt self env fuel days w).1 = Raised e /\
    files (fetch_recent_data rt self env fuel days w).2 = files w /\
    (window_valid rt days -> e = PyError (RequestError x)).
Proof.
  intros Hdown Hfuel. unfold fetch_recent_data.
  destruct (999999999 <? Z.abs days)%Z eqn:H1.
  { eexists. repeat split. intros [H _]%window_valid_dec. congruence. }
  destruct ((now_day rt - days <? 1) || (3652059 <? now_day rt - days))%Z
    eqn:H2.
  { eexists. repeat split. intros [_ H]%window_valid_dec. congruence. }
  destruct (fetch_down self env fuel (strftime_ymd rt (now_day rt - days))
              (Some (strftime_ymd rt (now_day rt))) None w x Hdown Hfuel)
    as [Hr Hf].
  destruct (fetch_sales_data _ _ _ _ _ _ _) as [r w']. simpl in *. subst r.
  eexists. by repeat split.
Qed.

Lemma raise_request_pair {A} (p : Result RequestException A * World) :
  (let (r, w') := p in (raise_request r, w')) = (raise_request p.1, p.2).
Proof. by destruct p. Qed.

(** With a valid clock every choice but "4" is one fetch without token,
    after one log line; the default and the fallback cover the last 730
    days. *)
Lemma run_choice_fetch rt fetcher env fuel choice :
  clock_valid rt -> choice <> "4" ->
  exists s e entry,
    (forall c,
       run_choice rt fetcher env fuel choice c =
         (raise_request
            (fetch_sales_data fetcher env fuel s e None
               (logger entry (world c))).1,
          {| world := (fetch_sales_data fetcher env fuel s e None
                         (logger entry (world c))).2;
             stdin := stdin c; stdout := stdout c |})) /\
    (choice <> "1" -> choice <> "3" ->
     s = strftime_ymd rt (now_day rt - 730) /\
     e = Some (strftime_ymd rt (now_day rt))).
Proof.
  intros Hclock H4. unfold run_choice.
  assert (H365 : window_valid rt 365) by (apply clock_valid_window; [done | lia]).
  assert (H730 : window_valid rt 730) by (apply clock_valid_window; [done | lia]).
  destruct (String.eqb choice "1") eqn:E1;
    [| destruct (String.eqb choice "2") eqn:E2;
       [| destruct (String.eqb choice "3") eqn:E3;
          [| destruct (String.eqb choice "4") eqn:E4]]].
  - apply String.eqb_eq in E1.
    eexists _, _, _. split; [| by intros []].
    intros c. unfold script_bind, script_log. rewrite call_eq. cbn [world].
    rewrite fetch_recent_data_valid by done. reflexivity.
  - eexists _, _, _. split; [| by intros _ _].
    intros c. unfold script_bind, script_log. rewrite call_eq. cbn [world].
    rewrite fetch_recent_data_valid by done. reflexivity.
  - apply String.eqb_eq in E3.
    eexists _, _, _. split; [| by intros _ []].
    intros c. unfold script_bind, script_log. rewrite call_eq. cbn [world].
    rewrite raise_request_pair. reflexivity.
  - apply String.eqb_eq in E4. by destruct H4.
  - eexists _, _, _. split; [| by intros _ _].
    intros c. unfold script_bind, script_log. rewrite call_eq. cbn [world].
    rewrite fetch_recent_data_valid by done. reflexivity.
Qed.

(** With the sales endpoint down, whatever was chosen raises and writes
    no file. *)
Lemma run_choice_down rt fetcher env fuel choice c x :
  endpoint_down env x -> 0 < fuel ->
  exists e,
    (run_choice rt fetcher env fuel choice c).1 = Raised e /\
    files (world (run_choice rt fetcher env fuel choice c).2) =
      files (world c).
Proof.
  intros Hdown Hfuel. unfold run_choice.
  assert (Hrecent : forall days entry,
            exists e,
              ((srun script_log entry;
                call (fetch_recent_data rt fetcher env fuel days)) c).1
                = Raised e /\
              files (world ((srun script_log entry;
                             call (fetch_recent_data rt fetcher env fuel days))
                              c).2) = files (world c)).
  { intros days entry. unfold script_bind, script_log.
    rewrite call_eq. cbn [world fst snd].
    destruct (fetch_recent_data_down rt fetcher env fuel days
                (logger entry (world c)) x Hdown Hfuel) as (e & Hr & Hf & _).
    exists e. by rewrite Hr, Hf. }
  assert (Hfetch : forall s e w,
            (let (r, w') := fetch_sales_data fetcher env fuel s e None w in
             (raise_request r, w')) =
            (Raised (PyError (RequestError x)),
             (fetch_sales_data fetcher env fuel s e None w).2)).
  { intros s e w.
    destruct (fetch_down fetcher env fuel s e None w x Hdown Hfuel) as [Hr _].
    destruct (fetch_sales_data _ _ _ _ _ _ _) as [r w']. simpl in *.
    by subst r. }
  destruct (String.eqb choice "1"); [apply Hrecent |].
  destruct (String.eqb choice "2"); [apply Hrecent |].
  destruct (String.eqb choice "3").
  { unfold script_bind, script_log. rewrite call_eq. cbn [world fst snd].
    rewrite Hfetch. eexists. split; [done |]. cbn [fst snd world].
    by destruct (fetch_down fetcher env fuel "2019-01-01" None None
                   (logger (INFO [Lit "Fetching data since 2019..."]) (world c))
                   x Hdown Hfuel) as [_ ->]. }
  destruct (String.eqb choice "4"); [| apply Hrecent].
  unfold script_bind, input.
  destruct (stdin c) as [|a [|b rest]]; cbn [fst snd world stdin];
    try by eexists.
  rewrite call_eq. cbn [world fst snd]. rewrite Hfetch.
  eexists. split; [done |]. cbn [fst snd world].
  match goal with |- files (fetch_sales_data ?f ?e ?n ?s ?d ?t ?w).2 = _ =>
    by destruct (fetch_down f e n s d t w x Hdown Hfuel) as [_ ->] end.
Qed.

Lemma logger_last entry w : last (log (logger entry w)) = Some entry.
Proof. simpl. apply last_snoc. Qed.


Lemma index_of_none c cols : c ∉ cols -> index_of c cols = None.
Proof.
  induction cols as [|c' cols IH]; intros Hc; simpl; [done |].
  apply not_elem_of_cons in Hc as [Hne Hc].
  destruct (String.eqb c c') eqn:E; [by apply String.eqb_eq in E |].
  by rewrite IH.
Qed.

(** A frame none of whose records has field [c] has no column [c]. *)
Lemma frame_getitem_missing db c :
  (forall r, r ∈ db -> c ∉ record_keys r) ->
  frame_getitem (DataFrame db) c = inl KeyError.
Proof.
  intros Hdb. unfold frame_getitem. rewrite index_of_none; [done |].
  intros Hc. apply frame_columns_fields in Hc as (r & Hr & Hk).
  by apply (Hdb r).
Qed.

Lemma fetch_returned_saved self env fuel s e t w df :
  (fetch_sales_data self env fuel s e t w).1 = Returned df ->
  read_back (standard_path self) (fetch_sales_data self env fuel s e t w).2
    = Some df.
Proof.
  intros Hres. unfold read_back.
  rewrite fetch_sales_data_result in Hres. rewrite fetch_sales_data_files.
  destruct (fetch_loop self env fuel s e t w).1; try discriminate.
  injection Hres as <-. apply lookup_insert_eq.
Qed.

Lemma fetch_sent self env fuel s e t w :
  exists k, k <= fuel /\
    sent (fetch_sales_data self env fuel s e t w).2 =
      sent w ++
      ((fun i => build_request self s (resolve_end_date env e)
                   (build_headers t) (Z.of_nat i * limit self))
         <$> seq 0 k).
Proof.
  destruct (while_true_sent self env s (resolve_end_date env e)
              (build_headers t) fuel
              (loop_entry s (resolve_end_date env e) t w) locals0)
    as (k & Hk & Hs).
  exists k. split; [done |].
  rewrite fetch_sales_data_sent. unfold fetch_loop.
  by rewrite Hs, loop_entry_sent.
Qed.


(** X15. Once the data directory exists and with a valid clock,
    pressing Enter at the menu, typing "2" or
    typing anything other than "1", "3" and "4" makes [main] send the
    metadata request and then only page requests for the window from
    730 days ago to today, without app token. *)
Theorem main_default_window rt env fuel c line rest :
  mkdir_data_dir rt = None ->
  stdin c = line :: rest ->
  clock_valid rt ->
  choice_of rt line <> "1" ->
  choice_of rt line <> "3" ->
  choice_of rt line <> "4" ->
  exists k, k <= fuel /\
    sent (world (main rt env fuel c).2) =
      sent (world c) ++
      metadata_request NYCDataFetcher_init ::
      window_requests NYCDataFetcher_init
        (strftime_ymd rt (now_day rt - 730)) (strftime_ymd rt (now_day rt)) k.
Proof.
  intros Hdir Hin Hclock H1 H3 H4.
  rewrite (main_after_choice _ _ _ _ line rest) by done.
  set (c1 := after_menu env c rest).
  remember (run_choice rt NYCDataFetcher_init env fuel (choice_of rt line))
    as m eqn:Em.
  pose proof (try_summary rt m c1) as Htry. cbn zeta in Htry.
  destruct (run_choice_fetch rt NYCDataFetcher_init env fuel
              (choice_of rt line) Hclock H4) as (s & d & entry & Heq & Hwin).
  destruct (Hwin H1 H3) as [-> ->].
  destruct (fetch_sent NYCDataFetcher_init env fuel
              (strftime_ymd rt (now_day rt - 730))
              (Some (strftime_ymd rt (now_day rt))) None
              (logger entry (world c1))) as (k & Hk & Hsent).
  destruct (logged_only_probe NYCDataFetcher_init env (world c)) as (Hp & _).
  exists k. split; [done |].
  assert (Hm : sent (world (m c1).2) =
               sent (world c) ++ metadata_request NYCDataFetcher_init ::
               window_requests NYCDataFetcher_init
                 (strftime_ymd rt (now_day rt - 730))
                 (strftime_ymd rt (now_day rt)) k).
  { rewrite Em, Heq. cbn [snd world]. rewrite Hsent.
    cbn [logger sent c1 after_menu world]. rewrite Hp.
    cbn [record_request sent]. by rewrite <- app_assoc. }
  destruct (m c1).1 as [df | e | ].
  - destruct Htry as [(_ & -> & _) | (e & _ & _ & -> & _)]; exact Hm.
  - destruct Htry as (_ & -> & _). exact Hm.
  - destruct Htry as (_ & ->). exact Hm.
Qed.

(** ** Concrete runs of the further properties *)

Example main_default_run :
  let out := main sample_runtime (script_env (socrata [sample_record])) 5
               (console0 [" "]) in
  out.1 = Returned tt /\
  param_int "$offset" <$> sent (world out.2) = [0; 0]%Z /\
  last (stdout out.2) =
    Some (Print [Lit "📁 Next step: Run 'python scripts/clean_data.py' to clean the data"]).
Proof. vm_compute. done. Qed.

Lemma result_is_pages_in_order_witness :
  let env := sample_env (scripted [replicate 2 sample_record;
                                   [undated_record]] Timeout) in
  let out := fetch_sales_data small_fetcher env 5 "2019-01-01" None None
               world0 in
  out.1 = Returned (DataFrame [sample_record; sample_record; undated_record])
  /\ DataFrame [sample_record; sample_record; undated_record] =
     DataFrame (pages_received small_fetcher env "2019-01-01" None None world0
                  (length (issued world0 out.2))).
Proof.
  intros env out. split; [reflexivity |].
  apply (result_is_pages_in_order small_fetcher env 5 "2019-01-01" None None
           world0).
  reflexivity.
Defined.


Lemma partial_result_is_logged_witness :
  let env := sample_env (scripted [replicate 2 sample_record] Timeout) in
  let out := fetch_sales_data small_fetcher env 5 "2019-01-01" None None
               world0 in
  exists pre,
    log out.2 =
      pre ++
      [ERROR [Lit "API request failed: "; Exc (RequestError Timeout)];
       INFO [Lit "Returning "; Num 2; Lit " records fetched so far"]] ++
      saving_lines small_fetcher env "2019-01-01" "2026-01-31"
        (DataFrame (replicate 2 sample_record)).
Proof.
  intros env out.
  destruct (partial_result_is_logged small_fetcher env 5 "2019-01-01" None
              None world0 1 Timeout) as (df & pre & Hres & Hlog);
    [reflexivity | lia | | reflexivity | lia |].
  { intros [|i] Hi; [| lia]. eexists. split; [reflexivity | simpl; lia]. }
  exists pre. injection Hres as <-. exact Hlog.
Defined.


Lemma fetch_touches_only_its_files_witness :
  let env := sample_env (socrata [sample_record]) in
  let w := to_csv "data/clean/sales.csv" (DataFrame [undated_record]) world0 in
  read_back "data/clean/sales.csv"
    (fetch_sales_data NYCDataFetcher_init env 5 "2019-01-01" None None w).2
    = Some (DataFrame [undated_record]).
Proof.
  intros env w.
  rewrite (fetch_touches_only_its_files NYCDataFetcher_init env 5 "2019-01-01"
             None None w "data/clean/sales.csv");
    [reflexivity | discriminate | discriminate].
Defined.

Lemma later_fetch_keeps_earlier_archive_witness :
  let env1 := sample_env (socrata [sample_record]) in
  let env2 := {| sales_api := socrata [undated_record];
                 metadata_api := always_failing Timeout;
                 today := "2026-02-01"; timestamp := "20260201_090000" |} in
  let out1 := fetch_sales_data NYCDataFetcher_init env1 5 "2019-01-01"
                (Some "2026-01-31") None world0 in
  let out2 := fetch_sales_data NYCDataFetcher_init env2 5 "2019-01-01"
                (Some "2026-01-31") None out1.2 in
  read_back
    "data/raw/nyc_property_sales_2019-01-01_2026-01-31_20260131_120000.csv"
    out2.2 = Some (DataFrame [sample_record]) /\
  read_back "data/raw/nyc_property_sales.csv" out2.2
    = Some (DataFrame [undated_record]).
Proof.
  intros env1 env2 out1 out2.
  destruct (later_fetch_keeps_earlier_archive NYCDataFetcher_init env1 env2
              5 5 "2019-01-01" "2026-01-31" None None world0
              (DataFrame [sample_record]) (DataFrame [undated_record]))
    as (Hold & _ & Hnew); [discriminate | reflexivity | reflexivity |].
  split; [exact Hold | exact Hnew].
Defined.

Lemma probe_succeeds_iff_witness :
  (get_dataset_info NYCDataFetcher_init (metadata_env sample_metadata)
     world0).1 = inr (Some sample_metadata).
Proof.
  apply (probe_succeeds_iff NYCDataFetcher_init (metadata_env sample_metadata)
           world0 sample_metadata).
  split; reflexivity.
Defined.

Lemma fetch_recent_data_window_witness :
  let out := fetch_recent_data sample_runtime NYCDataFetcher_init
               (sample_env (socrata [sample_record])) 5 365 world0 in
  exists k, k <= 5 /\
    issued world0 out.2 =
      window_requests NYCDataFetcher_init "2025-01-31" "2026-01-31" k.
Proof.
  intros out.
  destruct (fetch_recent_data_window sample_runtime NYCDataFetcher_init
              (sample_env (socrata [sample_record])) 5 365 world0)
    as [Hvalid _].
  apply Hvalid. unfold window_valid. simpl. lia.
Defined.




Lemma main_default_window_witness :
  exists k, k <= 5 /\
    sent (world (main sample_runtime (script_env (socrata [sample_record])) 5
                   (console0 ["  "])).2) =
      metadata_request NYCDataFetcher_init ::
      window_requests NYCDataFetcher_init "2024-02-01" "2026-01-31" k.
Proof.
  apply (main_default_window sample_runtime
           (script_env (socrata [sample_record])) 5 (console0 ["  "]) "  " []);
    [reflexivity | reflexivity | unfold clock_valid; simpl; lia
    | discriminate | discriminate | discriminate].
Defined.

Lemma print_summary_ok rt df c dates lo hi :
  frame_getitem df "sale_date" = inr dates ->
  series_min rt dates = inr lo ->
  series_max rt dates = inr hi ->
  print_summary rt df c =
    (Returned tt,
     {| world := world c; stdin := stdin c;
        stdout := stdout c ++ summary_output df lo hi |}).
Proof.
  intros Hd Hlo Hhi.
  unfold print_summary, script_bind, print, print_frame, script_lift. simpl.
  rewrite Hd, Hlo, Hhi. simpl. by rewrite <- !app_assoc.
Qed.



(** * The metadata probe and the HTTP status *)

Lemma raise_for_status_error {A} (resp : Response A) :
  error_status (status_code resp) ->
  raise_for_status resp = Some (HTTPError (status_code resp)).
Proof.
  unfold error_status, raise_for_status. intros [H1 H2].
  apply Z.leb_le in H1. apply Z.ltb_lt in H2. by rewrite H1, H2.
Qed.

Lemma raise_for_status_pass {A} (resp : Response A) :
  ~ error_status (status_code resp) -> raise_for_status resp = None.
Proof.
  unfold error_status, raise_for_status. intros H.
  destruct (400 <=? status_code resp)%Z eqn:H1; [| done].
  destruct (status_code resp <? 600)%Z eqn:H2; [| done].
  apply Z.leb_le in H1. apply Z.ltb_lt in H2. destruct H. lia.
Qed.




(** * CSV text written and read back *)

Lemma append_cons c (s t : string) : String c s +:+ t = String c (s +:+ t).
Proof. reflexivity. Qed.

Lemma append_nil_l (t : string) : EmptyString +:+ t = t.
Proof. reflexivity. Qed.

Lemma append_nil_r (b : string) : b +:+ EmptyString = b.
Proof. induction b as [|x b IH]; [done |]. by rewrite append_cons, IH. Qed.

Lemma append_snoc b c s :
  (b +:+ String c EmptyString) +:+ s = b +:+ String c s.
Proof. induction b as [|x b IH]; [done |]. by rewrite !append_cons, IH. Qed.

Lemma append_assoc (a b c : string) : (a +:+ b) +:+ c = a +:+ (b +:+ c).
Proof. induction a as [|x a IH]; [done |]. by rewrite !append_cons, IH. Qed.

Lemma tokenize_bytes_app p a b :
  tokenize_bytes p (a +:+ b) = tokenize_bytes (tokenize_bytes p a) b.
Proof.
  revert p. induction a as [|c a IH]; intros p; [done |].
  rewrite append_cons. simpl. apply IH.
Qed.

Lemma plain_cons c s : plain (String c s) = plain_char c && plain s.
Proof. unfold plain. simpl. by destruct (plain_char c). Qed.

Lemma plain_char_eqb c :
  plain_char c = true ->
  Ascii.eqb c delimiter = false /\ Ascii.eqb c quotechar = false /\
  Ascii.eqb c newline = false /\ Ascii.eqb c carriage = false.
Proof.
  unfold plain_char. intros H. apply negb_true_iff in H.
  repeat (apply orb_false_iff in H as [H ?]). done.
Qed.

Lemma in_field_end d b line lines :
  field_end d ->
  in_field d {| tok_state := IN_FIELD; tok_field := b;
                tok_line := line; tok_lines := lines |}
  = after_field d b line lines.
Proof. by intros [-> | ->]. Qed.

(** An unquoted field, read in state [IN_FIELD]. *)
Lemma tokenize_in_field f : forall b line lines d rest,
  plain f = true -> field_end d ->
  tokenize_bytes {| tok_state := IN_FIELD; tok_field := b;
                    tok_line := line; tok_lines := lines |}
    (f +:+ String d rest)
  = tokenize_bytes (after_field d (b +:+ f) line lines) rest.
Proof.
  induction f as [|c f IH]; intros b line lines d rest Hf Hd.
  - rewrite append_nil_l, append_nil_r. simpl. unfold tokenize_step. simpl.
    by rewrite in_field_end.
  - rewrite plain_cons in Hf. apply andb_true_iff in Hf as [Hc Hf].
    apply plain_char_eqb in Hc as (Hc1 & Hc2 & Hc3 & Hc4).
    rewrite append_cons. simpl. unfold tokenize_step, in_field. simpl.
    rewrite Hc1, Hc3, Hc4. unfold set_state, push_char. simpl.
    rewrite IH by done. by rewrite append_snoc.
Qed.

(** A quoted field, read in state [IN_QUOTED_FIELD] up to its closing
    quote. *)
Lemma tokenize_in_quoted_field f : forall b line lines d rest,
  field_end d ->
  tokenize_bytes {| tok_state := IN_QUOTED_FIELD; tok_field := b;
                    tok_line := line; tok_lines := lines |}
    ((join_append_data f +:+ String quotechar EmptyString)
     +:+ String d rest)
  = tokenize_bytes (after_field d (b +:+ f) line lines) rest.
Proof.
  induction f as [|c f IH]; intros b line lines d rest Hd.
  - rewrite append_nil_r. by destruct Hd as [-> | ->].
  - simpl. destruct (Ascii.eqb c quotechar) eqn:Hc.
    + apply Ascii.eqb_eq in Hc as ->. rewrite !append_cons.
      cbn [tokenize_bytes].
      change (tokenize_step {| tok_state := IN_QUOTED_FIELD; tok_field := b;
                               tok_line := line; tok_lines := lines |}
                quotechar) with
        {| tok_state := QUOTE_IN_QUOTED_FIELD; tok_field := b;
           tok_line := line; tok_lines := lines |}.
      change (tokenize_step {| tok_state := QUOTE_IN_QUOTED_FIELD;
                               tok_field := b;
                               tok_line := line; tok_lines := lines |}
                quotechar) with
        {| tok_state := IN_QUOTED_FIELD;
           tok_field := b +:+ String quotechar EmptyString;
           tok_line := line; tok_lines := lines |}.
      rewrite IH by done. by rewrite append_snoc.
    + rewrite !append_cons. simpl.
      unfold tokenize_step, in_quoted_field. simpl. rewrite Hc.
      unfold push_char. simpl. rewrite IH by done. by rewrite append_snoc.
Qed.

Lemma any_char_needs_quotes cr f :
  any_char (needs_quotes cr) f = false ->
  (cr = false -> has_cr f = false) ->
  plain f = true.
Proof.
  intros Hq Hcr. induction f as [|c f IH]; [done |].
  rewrite plain_cons. simpl in Hq. apply orb_false_iff in Hq as [Hc Hq].
  assert (Hcr' : cr = false -> Ascii.eqb carriage c = false /\ has_cr f = false).
  { intros E. specialize (Hcr E). unfold has_cr in Hcr. simpl in Hcr.
    by apply orb_false_iff in Hcr. }
  rewrite IH; [| done | intros E; by apply Hcr'].
  rewrite andb_true_r. unfold plain_char. apply negb_true_iff.
  unfold needs_quotes in Hc.
  repeat (apply orb_false_iff in Hc as [Hc ?]).
  rewrite Hc. simpl. repeat (apply orb_false_iff; split); try done.
  destruct cr; [done |]. rewrite Ascii.eqb_sym. by apply Hcr'.
Qed.

Lemma start_field_plain c line lines :
  plain_char c = true ->
  tokenize_step {| tok_state := START_FIELD; tok_field := EmptyString;
                   tok_line := line; tok_lines := lines |} c
  = {| tok_state := IN_FIELD; tok_field := String c EmptyString;
       tok_line := line; tok_lines := lines |}.
Proof.
  intros Hc. apply plain_char_eqb in Hc as (Hc1 & Hc2 & Hc3 & Hc4).
  unfold tokenize_step, start_field. simpl. by rewrite Hc1, Hc2, Hc3, Hc4.
Qed.

(** A field as [join_append] wrote it, read in state [START_FIELD]. *)
Lemma tokenize_start_field cr f line lines d rest :
  field_end d -> (cr = false -> has_cr f = false) ->
  tokenize_bytes {| tok_state := START_FIELD; tok_field := EmptyString;
                    tok_line := line; tok_lines := lines |}
    (join_append cr f +:+ String d rest)
  = tokenize_bytes (after_field d f line lines) rest.
Proof.
  intros Hd Hcr. unfold join_append.
  destruct (any_char (needs_quotes cr) f) eqn:Hq.
  - rewrite append_cons. cbn [tokenize_bytes].
    change (tokenize_step {| tok_state := START_FIELD;
                             tok_field := EmptyString;
                             tok_line := line; tok_lines := lines |}
              quotechar) with
      {| tok_state := IN_QUOTED_FIELD; tok_field := EmptyString;
         tok_line := line; tok_lines := lines |}.
    by rewrite tokenize_in_quoted_field.
  - pose proof (any_char_needs_quotes _ _ Hq Hcr) as Hf.
    destruct f as [|c f].
    + rewrite append_nil_l. cbn [tokenize_bytes]. by destruct Hd as [-> | ->].
    + rewrite plain_cons in Hf. apply andb_true_iff in Hf as [Hc Hf].
      rewrite append_cons. cbn [tokenize_bytes].
      rewrite start_field_plain by done.
      by rewrite tokenize_in_field.
Qed.

Lemma blank_cons c s : blank (String c s) = is_whitespace c && blank s.
Proof. unfold blank. simpl. by destruct (is_whitespace c). Qed.

(** An unquoted field at the start of a line, after spaces or tabs. *)
Lemma tokenize_whitespace_line f : forall b lines d rest,
  plain f = true -> field_end d -> (d = newline -> blank f = false) ->
  tokenize_bytes {| tok_state := WHITESPACE_LINE; tok_field := b;
                    tok_line := []; tok_lines := lines |}
    (f +:+ String d rest)
  = tokenize_bytes (after_field d (b +:+ f) [] lines) rest.
Proof.
  induction f as [|c f IH]; intros b lines d rest Hf Hd Hblank.
  - rewrite append_nil_l, append_nil_r. destruct Hd as [-> | ->].
    + by specialize (Hblank eq_refl).
    + reflexivity.
  - rewrite plain_cons in Hf. apply andb_true_iff in Hf as [Hc Hf].
    pose proof Hc as Hc'.
    apply plain_char_eqb in Hc' as (Hc1 & Hc2 & Hc3 & Hc4).
    rewrite append_cons. cbn [tokenize_bytes].
    unfold tokenize_step, whitespace_line. simpl. rewrite Hc3, Hc4.
    rewrite blank_cons in Hblank.
    destruct (is_whitespace c) eqn:Hw.
    + unfold push_char. simpl. rewrite IH; [by rewrite append_snoc | done ..].
    + unfold in_field. rewrite Hc1, Hc3, Hc4.
      unfold set_state, push_char. simpl.
      rewrite tokenize_in_field by done. by rewrite append_snoc.
Qed.

(** The first field of a line, as [join_append] wrote it. *)
Lemma tokenize_start_record cr f lines d rest :
  field_end d -> (cr = false -> has_cr f = false) ->
  (d = newline -> blank f = false) ->
  tokenize_bytes {| tok_state := START_RECORD; tok_field := EmptyString;
                    tok_line := []; tok_lines := lines |}
    (join_append cr f +:+ String d rest)
  = tokenize_bytes (after_field d f [] lines) rest.
Proof.
  intros Hd Hcr Hblank. unfold join_append.
  destruct (any_char (needs_quotes cr) f) eqn:Hq.
  - rewrite append_cons. cbn [tokenize_bytes].
    change (tokenize_step {| tok_state := START_RECORD;
                             tok_field := EmptyString;
                             tok_line := []; tok_lines := lines |}
              quotechar) with
      {| tok_state := IN_QUOTED_FIELD; tok_field := EmptyString;
         tok_line := []; tok_lines := lines |}.
    by rewrite tokenize_in_quoted_field.
  - pose proof (any_char_needs_quotes _ _ Hq Hcr) as Hf.
    destruct f as [|c f].
    + rewrite append_nil_l. destruct Hd as [-> | ->].
      * by specialize (Hblank eq_refl).
      * reflexivity.
    + rewrite plain_cons in Hf. apply andb_true_iff in Hf as [Hc Hf].
      pose proof Hc as Hc'.
      apply plain_char_eqb in Hc' as (Hc1 & Hc2 & Hc3 & Hc4).
      rewrite append_cons. cbn [tokenize_bytes].
      unfold tokenize_step, start_record. simpl. rewrite Hc3, Hc4.
      rewrite blank_cons in Hblank.
      destruct (is_whitespace c) eqn:Hw.
      * unfold set_state, push_char. simpl.
        by rewrite tokenize_whitespace_line.
      * unfold start_field. rewrite Hc1, Hc2, Hc3, Hc4.
        unfold set_state, push_char. simpl.
        by rewrite tokenize_in_field.
Qed.

(** The fields of a record after the first. *)
Lemma tokenize_join_rest cr fs : forall f line lines rest,
  (cr = false -> forall g, g ∈ f :: fs -> has_cr g = false) ->
  tokenize_bytes {| tok_state := START_FIELD; tok_field := EmptyString;
                    tok_line := line; tok_lines := lines |}
    (join_append cr f +:+ join_rest cr fs +:+ rest)
  = tokenize_bytes {| tok_state := START_RECORD; tok_field := EmptyString;
                      tok_line := []; tok_lines := lines ++ [line ++ f :: fs] |}
      rest.
Proof.
  induction fs as [|g gs IH]; intros f line lines rest Hcr.
  - simpl join_rest. rewrite append_cons, append_nil_l.
    rewrite tokenize_start_field; [done | by left |].
    intros E. apply (Hcr E). by left.
  - simpl join_rest. rewrite append_cons.
    rewrite tokenize_start_field; [| by right |].
    + change (after_field delimiter f line lines) with
        {| tok_state := START_FIELD; tok_field := EmptyString;
           tok_line := line ++ [f]; tok_lines := lines |}.
      rewrite append_assoc, IH.
      * by rewrite <- app_assoc.
      * intros E h Hh. apply (Hcr E). by right.
    + intros E. apply (Hcr E). by left.
Qed.

(** A record as [writerow] wrote it is read as one line. *)
Lemma tokenize_writerow cr fields lines rest :
  record_ok cr fields ->
  tokenize_bytes {| tok_state := START_RECORD; tok_field := EmptyString;
                    tok_line := []; tok_lines := lines |}
    (writerow cr fields +:+ rest)
  = tokenize_bytes {| tok_state := START_RECORD; tok_field := EmptyString;
                      tok_line := []; tok_lines := lines ++ [fields] |}
      rest.
Proof.
  intros (Hne & Hcr & Hblank). destruct fields as [|f fs]; [done |].
  assert (Hf : cr = false -> has_cr f = false).
  { intros E. apply (Hcr E). by left. }
  destruct fs as [|g gs].
  - destruct (Hblank f eq_refl) as [-> | Hb]; [reflexivity |].
    assert (writerow cr [f] = join_append cr f +:+ String newline EmptyString)
      as -> by (by destruct f).
    rewrite append_assoc, append_cons, append_nil_l.
    rewrite tokenize_start_record; [done | by left | done | done].
  - assert (writerow cr (f :: g :: gs)
            = join_append cr f
              +:+ String delimiter (join_append cr g +:+ join_rest cr gs))
      as -> by (by destruct f).
    rewrite append_assoc, append_cons.
    rewrite tokenize_start_record; [| by right | done | done].
    change (after_field delimiter f [] lines) with
      {| tok_state := START_FIELD; tok_field := EmptyString;
         tok_line := [f]; tok_lines := lines |}.
    rewrite append_assoc, tokenize_join_rest; [done |].
    intros E h Hh. apply (Hcr E). by right.
Qed.

Lemma tokenize_write_rows cr records : forall lines,
  Forall (record_ok cr) records ->
  tokenize_bytes {| tok_state := START_RECORD; tok_field := EmptyString;
                    tok_line := []; tok_lines := lines |}
    (write_rows cr records)
  = {| tok_state := START_RECORD; tok_field := EmptyString;
       tok_line := []; tok_lines := lines ++ records |}.
Proof.
  induction records as [|r records IH]; intros lines Hok.
  - simpl. by rewrite app_nil_r.
  - apply Forall_cons in Hok as [Hr Hok]. simpl write_rows.
    rewrite tokenize_writerow by done. rewrite IH by done.
    by rewrite <- app_assoc.
Qed.

Lemma check_for_bom_first c text :
  Ascii.eqb c (Ascii.ascii_of_nat 239) = false ->
  check_for_bom (String c text) = String c text.
Proof. intros H. destruct text as [|c2 [|c3 text]]; simpl; by rewrite ?H. Qed.

Lemma check_for_bom_second c1 c text :
  Ascii.eqb c (Ascii.ascii_of_nat 187) = false ->
  check_for_bom (String c1 (String c text)) = String c1 (String c text).
Proof.
  intros H. destruct text as [|c3 text]; simpl; [done |].
  by rewrite H, andb_false_r.
Qed.

Lemma check_for_bom_third c1 c2 c text :
  Ascii.eqb c (Ascii.ascii_of_nat 191) = false ->
  check_for_bom (String c1 (String c2 (String c text)))
  = String c1 (String c2 (String c text)).
Proof. intros H. simpl. by rewrite H, andb_false_r. Qed.

Lemma check_for_bom_field cr f d rest :
  field_end d -> has_bom f = false ->
  check_for_bom (join_append cr f +:+ String d rest)
  = join_append cr f +:+ String d rest.
Proof.
  intros Hd Hbom. unfold join_append.
  destruct (any_char (needs_quotes cr) f).
  { rewrite append_cons. by apply check_for_bom_first. }
  destruct f as [|c1 [|c2 [|c3 f]]]; rewrite ?append_cons, ?append_nil_l.
  - apply check_for_bom_first. by destruct Hd as [-> | ->].
  - apply check_for_bom_second. by destruct Hd as [-> | ->].
  - apply check_for_bom_third. by destruct Hd as [-> | ->].
  - simpl in Hbom. simpl. by rewrite Hbom.
Qed.

Lemma join_rest_end cr fs :
  exists d text, field_end d /\ join_rest cr fs = String d text.
Proof.
  destruct fs as [|g gs]; simpl; eexists _, _; (split; [| reflexivity]).
  - by left.
  - by right.
Qed.

Lemma check_for_bom_writerow cr f fs rest :
  has_bom f = false ->
  check_for_bom (writerow cr (f :: fs) +:+ rest)
  = writerow cr (f :: fs) +:+ rest.
Proof.
  intros Hbom.
  destruct (decide (f = EmptyString /\ fs = [])) as [[-> ->] | Hn].
  { reflexivity. }
  assert (writerow cr (f :: fs) = join_append cr f +:+ join_rest cr fs) as ->.
  { destruct f; [destruct fs |]; try done. by destruct Hn. }
  destruct (join_rest_end cr fs) as (d & text & Hd & ->).
  rewrite append_assoc, append_cons. by apply check_for_bom_field.
Qed.

Lemma c_string_no_nul s : has_nul s = false -> c_string s = s.
Proof.
  induction s as [|c s IH]; [done |]. unfold has_nul.
  cbn [any_char c_string]. intros H. apply orb_false_iff in H as [Hc Hs].
  rewrite Ascii.eqb_sym, Hc. by rewrite IH.
Qed.

Lemma imap_header_label cols :
  (forall c, c ∈ cols -> c <> EmptyString /\ has_nul c = false) ->
  imap header_label cols = cols.
Proof.
  intros Hne. rewrite <- (list_fmap_id cols) at 2.
  rewrite <- (imap_const id cols). apply imap_ext.
  intros i c Hc. apply list_elem_of_lookup_2, Hne in Hc as [Hc Hnul].
  unfold header_label. rewrite c_string_no_nul by done. by destruct c.
Qed.

Lemma csv_rows_length pd table r :
  r ∈ csv_rows pd table -> length r = length (columns table).
Proof.
  unfold csv_rows. intros Hr.
  apply elem_of_cons in Hr as [-> | Hr]; [done |].
  apply list_elem_of_fmap in Hr as (i & -> & _).
  by rewrite length_fmap, length_seq.
Qed.

Lemma bad_line_same_length n records :
  (forall r, r ∈ records -> length r = n) -> bad_line records = false.
Proof.
  intros Hlen. destruct records as [|h [|d rest]]; [done .. |].
  simpl. apply not_true_is_false. intros Hex.
  apply existsb_exists in Hex as (l & Hl & Hlt).
  apply Nat.ltb_lt in Hlt.
  rewrite (Hlen h), (Hlen d), (Hlen l) in Hlt.
  - lia.
  - do 2 right. by apply list_elem_of_In.
  - right. by left.
  - by left.
Qed.

Lemma reads_back_records pd table :
  reads_back pd table = true ->
  exists first others,
    columns table = first :: others /\
    (forall c, c ∈ columns table -> c <> EmptyString /\ has_nul c = false) /\
    has_bom first = false /\
    Forall (record_ok (quotes_cr pd)) (csv_rows pd table).
Proof.
  unfold reads_back. intros H.
  destruct (columns table) as [|first others] eqn:Hcols; [done |].
  apply andb_true_iff in H as [H Hblank].
  apply andb_true_iff in H as [H Hcr].
  apply andb_true_iff in H as [Hne Hbom].
  exists first, others. split; [done |]. split; [| split].
  - intros c Hin. rewrite forallb_forall in Hne.
    apply list_elem_of_In, Hne in Hin.
    apply andb_true_iff in Hin as [Hc Hnul].
    apply negb_true_iff in Hc, Hnul. split; [| done].
    intros ->. discriminate Hc.
  - by apply negb_true_iff.
  - apply Forall_forall. intros r Hr.
    pose proof (csv_rows_length _ _ _ Hr) as Hlen. rewrite Hcols in Hlen.
    split; [| split].
    + by destruct r.
    + intros E f Hf. rewrite E, orb_false_l in Hcr.
      rewrite forallb_forall in Hcr.
      apply list_elem_of_In, Hcr in Hr. rewrite forallb_forall in Hr.
      apply list_elem_of_In, Hr in Hf. by apply negb_true_iff.
    + intros f ->. destruct others as [|o others]; [| done].
      rewrite forallb_forall in Hblank.
      apply list_elem_of_In, Hblank in Hr. simpl in Hr.
      rewrite andb_true_r in Hr. apply orb_true_iff in Hr as [Hr | Hr].
      * left. by apply String.eqb_eq.
      * right. by apply negb_true_iff.
Qed.

(** The file of a table that [reads_back] is read with the labels and
    the number of rows of the table. *)
Lemma read_csv_text_written pd table :
  reads_back pd table = true ->
  read_csv_text (to_csv_text pd table)
  = inr (columns table, length (rows table)).
Proof.
  intros H.
  destruct (reads_back_records _ _ H)
    as (first & others & Hcols & Hne & Hbom & Hok).
  unfold read_csv_text, to_csv_text.
  assert (Hbody : exists body, csv_rows pd table = columns table :: body /\
                               length body = length (rows table)).
  { eexists. split; [reflexivity |]. by rewrite length_fmap, length_seq. }
  destruct Hbody as (body & Hrows & Hlen).
  pose proof (csv_rows_length pd table) as Hsame.
  rewrite Hrows in *. simpl write_rows. rewrite Hcols at 1.
  rewrite check_for_bom_writerow by done. rewrite <- Hcols.
  change (writerow (quotes_cr pd) (columns table)
          +:+ write_rows (quotes_cr pd) body)
    with (write_rows (quotes_cr pd) (columns table :: body)).
  unfold parser0. rewrite tokenize_write_rows by done.
  cbn [parser_handle_eof tok_state tok_lines app].
  rewrite (bad_line_same_length _ _ Hsame).
  by rewrite imap_header_label, Hlen.
Qed.

Lemma tokenize_empty_records cr records :
  Forall (fun r => r = []) records ->
  tokenize_bytes parser0 (write_rows cr records) = parser0.
Proof.
  induction records as [|r records IH]; intros Hall; [done |].
  apply Forall_cons in Hall as [-> Hall]. simpl write_rows.
  rewrite append_cons, append_nil_l. cbn [tokenize_bytes].
  by apply IH.
Qed.

(** The file of a table without columns has empty lines only and is
    not read. *)
Lemma read_csv_text_no_columns pd table :
  columns table = [] ->
  read_csv_text (to_csv_text pd table) = inl EmptyDataError.
Proof.
  intros Hcols. unfold read_csv_text, to_csv_text, csv_rows.
  rewrite Hcols. simpl write_rows. rewrite append_cons, append_nil_l.
  rewrite check_for_bom_first by done. cbn [tokenize_bytes].
  change (tokenize_step parser0 newline) with parser0.
  rewrite tokenize_empty_records; [done |].
  apply Forall_forall. intros r Hr.
  by apply list_elem_of_fmap in Hr as (i & -> & _).
Qed.

(** * Reading the canonical file back *)

(** Why [reads_back] asks for what it asks: an empty label comes back
    renamed, and in a table of one column a row of spaces is skipped as
    a blank line. *)
Example empty_label_is_renamed :
  read_csv_text (to_csv_text sample_pandas
                   (DataFrame [[("", JStr "1"); ("b", JStr "2")]]))
  = inr (["Unnamed: 0"; "b"], 1).
Proof. reflexivity. Qed.

Example row_of_spaces_is_skipped :
  read_csv_text (to_csv_text sample_pandas
                   (DataFrame [[("a", JStr " ")]; [("a", JStr "x")]]))
  = inr (["a"], 1).
Proof. reflexivity. Qed.

(** Commas, quotes and line feeds in a field are quoted and read back. *)
Example quoted_fields_are_read_back :
  let quote := String quotechar EmptyString in
  let table := DataFrame [[("address", JStr "12 MAIN ST, APT 4");
                           ("note", JStr ("said " +:+ quote +:+ "hi" +:+ quote
                                          +:+ String newline "again"))];
                          [("address", JStr " "); ("note", JNull)]] in
  reads_back sample_pandas table = true /\
  read_csv_text (to_csv_text sample_pandas table)
  = inr (["address"; "note"], 2).
Proof. split; reflexivity. Qed.

Lemma read_csv_file pd path table w :
  files w !! path = Some table ->
  read_csv pd path w = read_csv_text (to_csv_text pd table).
Proof. intros H. unfold read_csv, file_text. by rewrite H. Qed.




(** * Errors raised by the call and the files *)

Lemma fetch_sales_data_io_loop disk self env fuel s e t w :
  fetch_sales_data_io disk self env fuel s e t w =
    match fetch_loop self env fuel s e t w with
    | (Exhausted _, w') => (Running, w')
    | (Propagated x, w') => (Raised (RequestFailure x), w')
    | (Finished st, w') =>
        let df := DataFrame (all_data st) in
        let w1 := logger (INFO [Lit "Successfully fetched ";
                                Num (frame_len df);
                                Lit " total records"]) w' in
        let filepath := archive_path self env s (resolve_end_date env e) in
        if unwritable disk filepath then (Raised (WriteFailure filepath), w1)
        else
          let w2 := logger (INFO [Lit "Raw data saved to: "; Lit filepath])
                      (to_csv filepath df w1) in
          if unwritable disk (standard_path self)
          then (Raised (WriteFailure (standard_path self)), w2)
          else (Returned df,
                logger (INFO [Lit "Data also saved as: ";
                              Lit (standard_path self)])
                  (to_csv (standard_path self) df w2))
    end.
Proof. reflexivity. Qed.

(** Where both files can be written the call is [fetch_sales_data]. *)
Lemma fetch_sales_data_io_writable disk self env fuel s e t w :
  unwritable disk (archive_path self env s (resolve_end_date env e)) = false ->
  unwritable disk (standard_path self) = false ->
  fetch_sales_data_io disk self env fuel s e t w =
    (request_failure (fetch_sales_data self env fuel s e t w).1,
     (fetch_sales_data self env fuel s e t w).2).
Proof.
  intros Ha Hs. unfold fetch_sales_data_io, fetch_sales_data. cbv zeta.
  destruct (while_true _ _ _ _ _ _ _ _) as [[st | st | x] w'];
    [reflexivity | | reflexivity].
  by rewrite Ha, Hs.
Qed.



